(** * mcp-nettools: the capturing TCP proxy engine

    A shallow embedding of the capture buffer ([CapturedPacket] and
    [RingBuffer], the file that follows [cmd/proxy_test.go] in the sources),
    of [cmd/proxy.go] and of [cmd/tools.go], and the proofs of the properties
    the design document states about them.

    Conventions of the embedding.
    - A Go [int] is a [Z].  The arithmetic of the program on an [int] is on
      lengths, indices and sums of lengths of slices that are live at that
      moment, which stay far below [2^63]: the wrap-around of the machine
      integer never happens and is not written out.
    - A [[]byte] is a [list byte], a Go [string] a [string]; the conversion
      [string(data)] is [string_of_list_byte].
    - A pointer that may be [nil] is an [option].
    - A run-time panic (index out of range, nil dereference, division by
      zero, close of a closed channel) is the result [None] of a function
      into [option]. *)

From Stdlib Require Import ZArith Lia.
From Stdlib Require Import Strings.Byte Strings.String.
From Stdlib Require Import DecimalString.
From Stdlib Require Import Floats.SpecFloat.
From stdpp Require Import base option list gmap strings.

(** ** The operations of Go and of its library the program uses *)

Module Go.

Local Open Scope Z_scope.

#[global] Instance byte_eq_decision : EqDecision byte := Byte.byte_eq_dec.

(** [len(s)] *)
Definition len {A} (s : list A) : Z := Z.of_nat (length s).

(** [make([]T, n)] for a type whose zero value is [zero] and an [n] that is
    not negative; on a negative [n] it panics, which is for the caller to
    write out. *)
Definition make {A} (zero : A) (n : Z) : list A := replicate (Z.to_nat n) zero.

(** [s[i]]: panics outside [0 <= i < len(s)]. *)
Definition index {A} (s : list A) (i : Z) : option A :=
  if bool_decide (0 <= i < len s) then s !! Z.to_nat i else None.

(** [s[i] = x]: panics outside [0 <= i < len(s)]. *)
Definition store {A} (s : list A) (i : Z) (x : A) : option (list A) :=
  if bool_decide (0 <= i < len s) then Some (<[Z.to_nat i := x]> s) else None.

(** [s[lo:hi]] for a slice whose capacity is its length: panics outside
    [0 <= lo <= hi <= len(s)]. *)
Definition slice {A} (s : list A) (lo hi : Z) : option (list A) :=
  if bool_decide (0 <= lo <= hi /\ hi <= len s)
  then Some (take (Z.to_nat (hi - lo)) (drop (Z.to_nat lo) s))
  else None.

(** [copy(dst, src)]: overwrites the first [min(len(dst), len(src))] elements
    of [dst]; gives the destination after the copy and the number copied. *)
Definition copy {A} (dst src : list A) : list A * Z :=
  (take (length dst) src ++ drop (length src) dst,
   Z.min (len dst) (len src)).

(** [a % b] on [int]: truncated remainder, panics when [b] is zero. *)
Definition rem (a b : Z) : option Z :=
  if bool_decide (b = 0) then None else Some (Z.rem a b).

(** [float64] is IEEE 754 binary64, with the operations of the standard
    library's executable specification (round to nearest, ties to even). *)
Definition float64 : Type := spec_float.
Definition prec : Z := 53.
Definition emax : Z := 1024.

(** [float64(n)] for an [int] [n]. *)
Definition float64_of_int (n : Z) : float64 := binary_normalize prec emax n 0 false.
Definition fmul (x y : float64) : float64 := SFmul prec emax x y.
Definition fdiv (x y : float64) : float64 := SFdiv prec emax x y.

(** [int(v)] for a [float64] [v] that has an [int] value after the fraction
    is discarded.  For any other [v] the language leaves the result to the
    implementation; [minInt], the answer of amd64, stands for it. *)
Definition minInt : Z := - 2 ^ 63.
Definition int_of_float64 (v : float64) : Z :=
  match v with
  | S754_zero _ => 0
  | S754_finite sign m e =>
      let magnitude := if bool_decide (0 <= e)
                       then Z.pos m * 2 ^ e
                       else Z.pos m / 2 ^ (- e) in
      let n := if sign then - magnitude else magnitude in
      if bool_decide (minInt <= n < 2 ^ 63) then n else minInt
  | _ => minInt
  end.

(** The [%d] verb of [fmt] on an [int]. *)
Definition fmt_d (n : Z) : string := NilZero.string_of_int (Z.to_int n).

(** [strings.HasPrefix(s, prefix)] *)
Fixpoint HasPrefix (s prefix : string) {struct prefix} : bool :=
  match prefix, s with
  | EmptyString, _ => true
  | String c prefix', String d s' => Ascii.eqb c d && HasPrefix s' prefix'
  | String _ _, EmptyString => false
  end.

(** [strings.Contains(s, substr)] *)
Fixpoint Contains (s substr : string) : bool :=
  HasPrefix s substr ||
  match s with
  | EmptyString => false
  | String _ s' => Contains s' substr
  end.

End Go.

(** ** The capture buffer: [CapturedPacket] and [RingBuffer] *)

Module Buffer.

Local Open Scope Z_scope.

(** [CapturedPacket]; [Timestamp] is the instant as a number. *)
Record CapturedPacket := {
  Timestamp : Z;
  Direction : string;
  Bytes : Z;
  HexDump : string;
  AsciiStrings : list string;
  DetectedProtocol : string;
  RawData : list byte
}.

(** [RingBuffer], without its mutex: every method holds it from entry to
    return, so a method is one atomic step on these fields.  A slot of
    [data] is a [*CapturedPacket], [None] for [nil]. *)
Record RingBuffer := {
  data : list (option CapturedPacket);
  maxSize : Z;
  currentSize : Z;
  head : Z;
  tail : Z;
  count : Z
}.

Definition defaultMaxSize : Z := 10 * 1024 * 1024.
Definition initialCapacity : Z := 1000.

Definition NewRingBuffer (maxSize : Z) : RingBuffer :=
  let maxSize := if bool_decide (maxSize <= 0) then defaultMaxSize else maxSize in
  {| data := Go.make None initialCapacity;
     maxSize := maxSize;
     currentSize := 0;
     head := 0;
     tail := 0;
     count := 0 |}.

(** The size check at the head of [Add]: the packet as it is stored, and
    [packetSize].  The truncation writes [packet.RawData] through the
    pointer, so the packet the caller holds is the stored one; a packet that
    is in the buffer already has at most [maxSize] raw bytes, so adding the
    same pointer again cuts nothing, and a slot can hold the packet by
    value. *)
Definition truncate (maxSize : Z) (packet : CapturedPacket)
  : option (CapturedPacket * Z) :=
  let packetSize := Go.len (RawData packet) in
  if bool_decide (packetSize > maxSize) then
    raw ← Go.slice (RawData packet) 0 maxSize;
    Some ({| Timestamp := Timestamp packet;
             Direction := Direction packet;
             Bytes := Bytes packet;
             HexDump := HexDump packet;
             AsciiStrings := AsciiStrings packet;
             DetectedProtocol := DetectedProtocol packet;
             RawData := raw |}, maxSize)
  else Some (packet, packetSize).

(** One turn of the eviction loop's body. *)
Definition evict1 (rb : RingBuffer) : option RingBuffer :=
  slot ← Go.index (data rb) (tail rb);
  oldPacket ← slot;
  tail' ← Go.rem (tail rb + 1) (Go.len (data rb));
  Some {| data := data rb;
          maxSize := maxSize rb;
          currentSize := currentSize rb - Go.len (RawData oldPacket);
          head := head rb;
          tail := tail';
          count := count rb - 1 |}.

(** The eviction loop [for rb.currentSize+packetSize > rb.maxSize &&
    rb.count > 0 { ... }].  Every turn lowers [count] by one, so [fuel]
    turns suffice when [fuel] is at least [count]. *)
Fixpoint evict (fuel : nat) (packetSize : Z) (rb : RingBuffer) : option RingBuffer :=
  if bool_decide (currentSize rb + packetSize > maxSize rb) && bool_decide (count rb > 0)
  then match fuel with
       | O => None
       | S fuel => rb' ← evict1 rb; evict fuel packetSize rb'
       end
  else Some rb.

(** [grow]: doubles the capacity, moving the retained packets to the front. *)
Definition grow (rb : RingBuffer) : option RingBuffer :=
  let newData := Go.make None (Go.len (data rb) * 2) in
  newData ←
    (if bool_decide (tail rb < head rb) then
       src ← Go.slice (data rb) (tail rb) (head rb);
       Some (Go.copy newData src).1
     else if bool_decide (count rb > 0) then
       src1 ← Go.slice (data rb) (tail rb) (Go.len (data rb));
       let '(newData, n) := Go.copy newData src1 in
       src2 ← Go.slice (data rb) 0 (head rb);
       rest ← Go.slice newData n (Go.len newData);
       Some (take (Z.to_nat n) newData ++ (Go.copy rest src2).1)
     else Some newData);
  Some {| data := newData;
          maxSize := maxSize rb;
          currentSize := currentSize rb;
          head := count rb;
          tail := 0;
          count := count rb |}.

Definition Add (rb : RingBuffer) (packet : CapturedPacket) : option RingBuffer :=
  '(packet, packetSize) ← truncate (maxSize rb) packet;
  rb ← evict (Z.to_nat (count rb)) packetSize rb;
  rb ← (if bool_decide (count rb = Go.len (data rb)) then grow rb else Some rb);
  data' ← Go.store (data rb) (head rb) (Some packet);
  head' ← Go.rem (head rb + 1) (Go.len data');
  Some {| data := data';
          maxSize := maxSize rb;
          currentSize := currentSize rb + packetSize;
          head := head';
          tail := tail rb;
          count := count rb + 1 |}.

(** [GetAll]: a [nil] result is the empty list; a [nil] slot in the result
    would be a [None] element. *)
Definition GetAll (rb : RingBuffer) : option (list (option CapturedPacket)) :=
  if bool_decide (count rb = 0) then Some []
  else if bool_decide (count rb < 0) then None
  else
    let result := Go.make None (count rb) in
    if bool_decide (tail rb < head rb) then
      src ← Go.slice (data rb) (tail rb) (head rb);
      Some (Go.copy result src).1
    else
      src1 ← Go.slice (data rb) (tail rb) (Go.len (data rb));
      let '(result, n) := Go.copy result src1 in
      src2 ← Go.slice (data rb) 0 (head rb);
      rest ← Go.slice result n (Go.len result);
      Some (take (Z.to_nat n) result ++ (Go.copy rest src2).1).

Definition Clear (rb : RingBuffer) : RingBuffer :=
  {| data := (fun _ => None) <$> data rb;
     maxSize := maxSize rb;
     currentSize := 0;
     head := 0;
     tail := 0;
     count := 0 |}.

(** [getUsagePercentLocked]: [float64(rb.currentSize) * 100 /
    float64(rb.maxSize)], the constant [100] taking the type [float64]. *)
Definition getUsagePercentLocked (rb : RingBuffer) : Go.float64 :=
  if bool_decide (maxSize rb = 0) then S754_zero false
  else Go.fdiv (Go.fmul (Go.float64_of_int (currentSize rb)) (Go.float64_of_int 100))
               (Go.float64_of_int (maxSize rb)).

(** [GetStats], giving the buffer after the call and the three results. *)
Definition GetStats (rb : RingBuffer) : RingBuffer * (Z * Z * Go.float64) :=
  (rb, (count rb, currentSize rb, getUsagePercentLocked rb)).

(** *** The retained packets, oldest first

    The representation invariant of the ring: [count] slots starting at
    [tail], wrapping at the end of [data], hold the retained packets; [head]
    is the slot after the last one; [currentSize] is the sum of their raw
    sizes. *)

Definition total (ps : list CapturedPacket) : Z :=
  foldr (fun p acc => Go.len (RawData p) + acc) 0 ps.

Definition window (rb : RingBuffer) : list (option CapturedPacket) :=
  take (Z.to_nat (count rb)) (rotate (Z.to_nat (tail rb)) (data rb)).

Record rep (rb : RingBuffer) (ps : list CapturedPacket) : Prop := {
  rep_budget : 0 < maxSize rb;
  rep_tail : 0 <= tail rb < Go.len (data rb);
  rep_count : count rb = Go.len ps;
  rep_fit : count rb <= Go.len (data rb);
  rep_head : head rb = (tail rb + count rb) mod Go.len (data rb);
  rep_window : window rb = Some <$> ps;
  rep_size : currentSize rb = total ps
}.

(** What the design document says [Add] does, on the sequence of retained
    packets: drop the oldest ones while the running total plus the incoming
    size exceeds the budget, then append the (truncated) packet. *)
Fixpoint evict_oldest (budget packetSize : Z) (ps : list CapturedPacket)
  : list CapturedPacket :=
  match ps with
  | [] => []
  | _ :: rest =>
      if bool_decide (total ps + packetSize > budget)
      then evict_oldest budget packetSize rest
      else ps
  end.

Definition truncated (budget : Z) (p : CapturedPacket) : CapturedPacket :=
  if bool_decide (Go.len (RawData p) > budget)
  then {| Timestamp := Timestamp p;
          Direction := Direction p;
          Bytes := Bytes p;
          HexDump := HexDump p;
          AsciiStrings := AsciiStrings p;
          DetectedProtocol := DetectedProtocol p;
          RawData := take (Z.to_nat budget) (RawData p) |}
  else p.

Definition enqueue (budget : Z) (ps : list CapturedPacket) (p : CapturedPacket)
  : list CapturedPacket :=
  let p' := truncated budget p in
  evict_oldest budget (Go.len (RawData p')) ps ++ [p'].

(** The calls that change a buffer, and a run of them. *)
Inductive call :=
  | DoAdd (packet : CapturedPacket)
  | DoClear.

Definition perform (rb : RingBuffer) (c : call) : option RingBuffer :=
  match c with
  | DoAdd packet => Add rb packet
  | DoClear => Some (Clear rb)
  end.

Fixpoint performAll (rb : RingBuffer) (calls : list call) : option RingBuffer :=
  match calls with
  | [] => Some rb
  | c :: rest => rb' ← perform rb c; performAll rb' rest
  end.

(** The same on the sequence of retained packets. *)
Definition effect (budget : Z) (ps : list CapturedPacket) (c : call)
  : list CapturedPacket :=
  match c with
  | DoAdd packet => enqueue budget ps packet
  | DoClear => []
  end.

(** The packets of the tests of the buffer: [size] raw bytes, all zero. *)
Definition testPacket (direction : string) (size : Z) : CapturedPacket :=
  {| Timestamp := 0;
     Direction := direction;
     Bytes := 100;
     HexDump := "test hex";
     AsciiStrings := ["test"];
     DetectedProtocol := "Test";
     RawData := Go.make x00 size |}.

End Buffer.

(** ** cmd/proxy.go: the registry, the relay and the protocol sniffer *)

Module Proxy.

Import Buffer.
Local Open Scope Z_scope.

(** An [error] is its message. *)
Definition error : Type := string.

Record ProxyStats := {
  BytesCaptured : Z;
  Connections : Z
}.

(** [ProxyInstance].  [Listener] is the handle of the bound socket.  Nothing
    is ever sent on [Done]; what matters of the channel is whether it has
    been closed.  The registry holds pointers to instances: the record is the
    instance the pointer leads to, as it is at that moment. *)
Record ProxyInstance := {
  ListenPort : Z;
  ForwardHost : string;
  ForwardPort : Z;
  Listener : Z;
  Buffer : RingBuffer;
  Stats : ProxyStats;
  Done : bool;
  StartedAt : Z;
  connections : Z
}.

(** [ProxyManager], without its lock: [StartProxy], [StopProxy] and [StopAll]
    hold the write lock from entry to return, so each call is one atomic step
    on the map, and calls made concurrently take effect one after the other,
    in some order. *)
Record ProxyManager := {
  proxies : gmap Z ProxyInstance
}.

Definition NewProxyManager : ProxyManager := {| proxies := ∅ |}.

Section Registry.

(** The operating system: [net.Listen(network, address)] gives the handle of
    a listener or the reason of the refusal; [now] is [time.Now()]. *)
Variable net_Listen : string -> string -> Z + string.
Variable now : Z.

(** [StartProxy]: the registry after the call and the error.  The accept
    loop started by [go proxy.run()] works on the instance, not on the map. *)
Definition StartProxy (pm : ProxyManager)
    (listenPort : Z) (forwardHost : string) (forwardPort captureLimit : Z)
  : ProxyManager * option error :=
  match proxies pm !! listenPort with
  | Some _ =>
      (pm, Some ("proxy already running on port " +:+ Go.fmt_d listenPort))
  | None =>
      match net_Listen "tcp" (":" +:+ Go.fmt_d listenPort) with
      | inr err =>
          (pm, Some ("failed to bind to port " +:+ Go.fmt_d listenPort +:+ ": " +:+ err))
      | inl listener =>
          let proxy := {| ListenPort := listenPort;
                          ForwardHost := forwardHost;
                          ForwardPort := forwardPort;
                          Listener := listener;
                          Buffer := NewRingBuffer captureLimit;
                          Stats := {| BytesCaptured := 0; Connections := 0 |};
                          Done := false;
                          StartedAt := now;
                          connections := 0 |} in
          ({| proxies := <[listenPort := proxy]> (proxies pm) |}, None)
      end
  end.

End Registry.

(** [StopProxy]: the registry after the call, the byte count and the error.
    [close(proxy.Done)] panics on a channel that is closed already. *)
Definition StopProxy (pm : ProxyManager) (listenPort : Z)
  : option (ProxyManager * (Z * option error)) :=
  match proxies pm !! listenPort with
  | None =>
      Some (pm, (0, Some ("no proxy running on port " +:+ Go.fmt_d listenPort)))
  | Some proxy =>
      if Done proxy then None
      else
        let bytesCaptured := BytesCaptured (Stats proxy) in
        Some ({| proxies := delete listenPort (proxies pm) |}, (bytesCaptured, None))
  end.

Definition GetProxy (pm : ProxyManager) (listenPort : Z) : option ProxyInstance :=
  proxies pm !! listenPort.

(** [GetAllProxies], each instance with the key it is stored under.  Go
    ranges over a map in an order it does not fix; the order here is the one
    of [map_to_list]. *)
Definition GetAllProxies (pm : ProxyManager) : list (Z * ProxyInstance) :=
  map_to_list (proxies pm).

Definition StopAll (pm : ProxyManager) : option ProxyManager :=
  if bool_decide (map_Forall (fun _ proxy => Done proxy = false) (proxies pm))
  then Some {| proxies := ∅ |}
  else None.

(** *** The relay: [copyWithCapture], as far as the stop channels go

    One relay is a loop over these places.  What a read or a write returns
    is the environment's choice. *)
Inductive place :=
  | AtSelect    (* the [select] on [p.Done] and [done] at the head of the loop *)
  | AtRead      (* [src.Read(buf)] *)
  | AtWrite     (* after [captureData], [dst.Write(data)] *)
  | AtCheck     (* the [select] on [done] under "Only close done once" *)
  | AtClose     (* its [default] branch: [close(done)] *)
  | Returned
  | Panicked.

Inductive readResult :=
  | ReadTimeout
  | ReadError             (* [io.EOF] or any other error that is not a timeout *)
  | ReadBytes (n : Z).

Inductive writeResult := WriteOk | WriteError.

Inductive event :=
  | Internal
  | ReadReturns (r : readResult)
  | WriteReturns (w : writeResult).

(** The two stop channels of a connection, and how often [close(done)] has
    been run on the connection's own one. *)
Record channels := {
  instanceDone : bool;
  connDone : bool;
  closes : nat
}.

(** One step of one relay; [None] when the event is not the one the place
    waits for. *)
Definition copyWithCapture_step (ch : channels) (pc : place) (ev : event)
  : option (channels * place) :=
  match pc, ev with
  | AtSelect, Internal =>
      if instanceDone ch || connDone ch then Some (ch, Returned) else Some (ch, AtRead)
  | AtRead, ReadReturns ReadTimeout => Some (ch, AtSelect)
  | AtRead, ReadReturns ReadError => Some (ch, AtCheck)
  | AtRead, ReadReturns (ReadBytes n) =>
      if bool_decide (n > 0) then Some (ch, AtWrite) else Some (ch, AtSelect)
  | AtWrite, WriteReturns WriteOk => Some (ch, AtSelect)
  | AtWrite, WriteReturns WriteError => Some (ch, AtCheck)
  | AtCheck, Internal =>
      if connDone ch then Some (ch, Returned) else Some (ch, AtClose)
  | AtClose, Internal =>
      if connDone ch
      then Some ({| instanceDone := instanceDone ch; connDone := true;
                    closes := S (closes ch) |}, Panicked)
      else Some ({| instanceDone := instanceDone ch; connDone := true;
                    closes := S (closes ch) |}, Returned)
  | _, _ => None
  end.

(** [handleConnection] after a successful dial: a fresh [connDone] and the
    two relays, one in its own goroutine. *)
Inductive relay := ClientToServer | ServerToClient.

Record connection := {
  chans : channels;
  clientToServer : place;
  serverToClient : place
}.

Definition handleConnection_start (instanceDone : bool) : connection :=
  {| chans := {| instanceDone := instanceDone; connDone := false; closes := 0 |};
     clientToServer := AtSelect;
     serverToClient := AtSelect |}.

Definition connection_step (c : connection) (who : relay) (ev : event)
  : option connection :=
  match who with
  | ClientToServer =>
      '(ch, pc) ← copyWithCapture_step (chans c) (clientToServer c) ev;
      Some {| chans := ch; clientToServer := pc; serverToClient := serverToClient c |}
  | ServerToClient =>
      '(ch, pc) ← copyWithCapture_step (chans c) (serverToClient c) ev;
      Some {| chans := ch; clientToServer := clientToServer c; serverToClient := pc |}
  end.

(** A schedule: which relay moves next, and on what event. *)
Fixpoint connection_run (c : connection) (schedule : list (relay * event))
  : option connection :=
  match schedule with
  | [] => Some c
  | (who, ev) :: rest => c' ← connection_step c who ev; connection_run c' rest
  end.

(** The schedule of the double close: both relays read an error (the two
    ends closing at about the same time), both pass the check on [done]
    before either closes it, then both close it. *)
Definition racing_schedule : list (relay * event) :=
  [ (ClientToServer, Internal); (ClientToServer, ReadReturns ReadError);
    (ServerToClient, Internal); (ServerToClient, ReadReturns ReadError);
    (ClientToServer, Internal); (ServerToClient, Internal);
    (ClientToServer, Internal); (ServerToClient, Internal) ].

(** The same events with the relays taking their turns one after the other. *)
Definition orderly_schedule : list (relay * event) :=
  [ (ClientToServer, Internal); (ClientToServer, ReadReturns ReadError);
    (ServerToClient, Internal); (ServerToClient, ReadReturns ReadError);
    (ClientToServer, Internal); (ClientToServer, Internal);
    (ServerToClient, Internal) ].

(** *** The protocol sniffer *)

Definition detectProtocol (data : list byte) : string :=
  let dataStr := string_of_list_byte data in
  if Go.HasPrefix dataStr "GET " || Go.HasPrefix dataStr "POST " ||
     Go.HasPrefix dataStr "PUT " || Go.HasPrefix dataStr "DELETE " ||
     Go.HasPrefix dataStr "HEAD " || Go.HasPrefix dataStr "OPTIONS " ||
     Go.HasPrefix dataStr "HTTP/1."
  then "HTTP/1.x"
  else if Go.HasPrefix dataStr "PRI * HTTP/2.0"
  then "HTTP/2"
  else if Go.Contains dataStr "/grpc." || Go.Contains dataStr ".proto."
  then "gRPC"
  else if bool_decide (Go.len data > 5) &&
          bool_decide (Go.index data 0 = Some x16) &&
          bool_decide (Go.index data 1 = Some x03)
  then "TLS"
  else "Unknown".

(** [b >= 32 && b <= 126] *)
Definition printable (b : byte) : bool :=
  (32 <=? Byte.to_N b)%N && (Byte.to_N b <=? 126)%N.

(** The body of the loop of [extractAsciiStrings] on [strings] and
    [current]. *)
Definition extract_step (st : list string * list byte) (b : byte)
  : list string * list byte :=
  let '(strings, current) := st in
  if printable b then (strings, current ++ [b])
  else
    (if bool_decide (Go.len current > 4)
     then strings ++ [string_of_list_byte current]
     else strings,
     []).

(** The statement after the loop: "Don't forget the last string". *)
Definition extract_finish (st : list string * list byte) : list string :=
  let '(strings, current) := st in
  if bool_decide (Go.len current > 4)
  then strings ++ [string_of_list_byte current]
  else strings.

(** [strings[:10]] is in range where it is taken. *)
Definition extractAsciiStrings (data : list byte) : list string :=
  let strings := extract_finish (fold_left extract_step data ([], [])) in
  if bool_decide (Go.len strings > 10) then take 10 strings else strings.

(** The registry of the tests: one proxy, on port 19090, the system having
    given the listener 3. *)
Definition testManager : ProxyManager :=
  (StartProxy (fun _ _ => inl 3) 0 NewProxyManager 19090 "localhost" 18080
     (1024 * 1024)).1.

(** *** What the design document says of the registry *)

(** The three errors of the engine, by their messages. *)
Definition AlreadyRunning (port : Z) : error :=
  "proxy already running on port " +:+ Go.fmt_d port.
Definition BindError (port : Z) (reason : string) : error :=
  "failed to bind to port " +:+ Go.fmt_d port +:+ ": " +:+ reason.
Definition NotFound (port : Z) : error :=
  "no proxy running on port " +:+ Go.fmt_d port.

(** No registered instance has its [Done] channel closed: the only
    statements that close it are in [StopProxy] and [StopAll], which take the
    instance out of the map in the same critical section. *)
Definition all_open (pm : ProxyManager) : Prop :=
  map_Forall (fun _ proxy => Done proxy = false) (proxies pm).

(** A run of [StartProxy] calls, in the order in which they get the lock;
    each call comes with what the operating system answers it. *)
Record startCall := {
  call_net_Listen : string -> string -> Z + string;
  call_now : Z;
  call_listenPort : Z;
  call_forwardHost : string;
  call_forwardPort : Z;
  call_captureLimit : Z
}.

Fixpoint StartAll (pm : ProxyManager) (calls : list startCall)
  : ProxyManager * list (option error) :=
  match calls with
  | [] => (pm, [])
  | c :: rest =>
      let '(pm, err) :=
        StartProxy (call_net_Listen c) (call_now c) pm (call_listenPort c)
                   (call_forwardHost c) (call_forwardPort c) (call_captureLimit c) in
      let '(pm, errs) := StartAll pm rest in
      (pm, err :: errs)
  end.

(** How many of the calls for [port] returned without an error. *)
Fixpoint started (port : Z) (calls : list startCall) (errs : list (option error)) : nat :=
  match calls, errs with
  | c :: calls, err :: errs =>
      (if bool_decide (call_listenPort c = port) && bool_decide (err = None)
       then 1 else 0)%nat + started port calls errs
  | _, _ => 0%nat
  end.

(** *** What the design document says of the sniffer *)

(** The chunk begins with the literal; the chunk contains the literal. *)
Definition begins_with (data : list byte) (literal : string) : Prop :=
  exists rest, data = list_byte_of_string literal ++ rest.

Definition contains (data : list byte) (literal : string) : Prop :=
  exists before after, data = before ++ list_byte_of_string literal ++ after.

Definition rule_http1 (data : list byte) : Prop :=
  begins_with data "GET " \/ begins_with data "POST " \/
  begins_with data "PUT " \/ begins_with data "DELETE " \/
  begins_with data "HEAD " \/ begins_with data "OPTIONS " \/
  begins_with data "HTTP/1.".

Definition rule_http2 (data : list byte) : Prop :=
  begins_with data "PRI * HTTP/2.0".

Definition rule_grpc (data : list byte) : Prop :=
  contains data "/grpc." \/ contains data ".proto.".

Definition rule_tls (data : list byte) : Prop :=
  Go.len data > 5 /\ exists rest, data = x16 :: x03 :: rest.

(** [runs_of data runs]: [runs] are the maximal runs of printable bytes of
    [data], from left to right.  A run is not empty, all its bytes are
    printable, and the byte after it, when there is one, is not; the bytes
    between two runs are not printable. *)
Inductive runs_of : list byte -> list (list byte) -> Prop :=
  | runs_end : runs_of [] []
  | runs_gap b rest runs :
      printable b = false -> runs_of rest runs -> runs_of (b :: rest) runs
  | runs_last run :
      run <> [] -> Forall (fun b => printable b = true) run ->
      runs_of run [run]
  | runs_run run b rest runs :
      run <> [] -> Forall (fun b => printable b = true) run ->
      printable b = false -> runs_of rest runs ->
      runs_of (run ++ b :: rest) (run :: runs).

(** The runs that are emitted: those longer than 4, the first 10 of them. *)
Definition emitted (runs : list (list byte)) : list string :=
  take 10 (string_of_list_byte <$> filter (fun run => (4 < length run)%nat) runs).

(** *** [captureData] and the counters of an instance *)

Section Capture.

(** [hex.Dump] of the package encoding/hex. *)
Variable hex_Dump : list byte -> string.

(** [captureData]: the instance after the call; [now] is [time.Now()].  The
    raw data of the packet is a copy of the chunk, [append([]byte(nil),
    data...)]. *)
Definition captureData (now : Z) (p : ProxyInstance) (data : list byte)
    (direction : string) : option ProxyInstance :=
  let stats := {| BytesCaptured := BytesCaptured (Stats p) + Go.len data;
                  Connections := Connections (Stats p) |} in
  let protocol := detectProtocol data in
  let asciiStrings := extractAsciiStrings data in
  hexDumpData ← (if bool_decide (Go.len data > 200)
                 then Go.slice data 0 200 else Some data);
  let hexDump := hex_Dump hexDumpData in
  let capture := {| Timestamp := now;
                    Direction := direction;
                    Bytes := Go.len data;
                    HexDump := hexDump;
                    AsciiStrings := asciiStrings;
                    DetectedProtocol := protocol;
                    RawData := data |} in
  buffer ← Add (Buffer p) capture;
  Some {| ListenPort := ListenPort p;
          ForwardHost := ForwardHost p;
          ForwardPort := ForwardPort p;
          Listener := Listener p;
          Buffer := buffer;
          Stats := stats;
          Done := Done p;
          StartedAt := StartedAt p;
          connections := connections p |}.

(** A relay of the instance registered under [listenPort] captures a chunk:
    the call works on the instance, which the registry points to. *)
Definition captureOn (pm : ProxyManager) (listenPort now : Z) (data : list byte)
    (direction : string) : option ProxyManager :=
  match proxies pm !! listenPort with
  | None => Some pm
  | Some p =>
      p' ← captureData now p data direction;
      Some {| proxies := <[listenPort := p']> (proxies pm) |}
  end.

(** The chunks a connection of the instance relays, each with the time of
    its capture and its direction. *)
Fixpoint captureAll (pm : ProxyManager) (listenPort : Z)
    (chunks : list (Z * list byte * string)) : option ProxyManager :=
  match chunks with
  | [] => Some pm
  | (now, data, direction) :: rest =>
      pm' ← captureOn pm listenPort now data direction;
      captureAll pm' listenPort rest
  end.

End Capture.

(** The steps of one relay on the events it meets, as long as they go. *)
Fixpoint copyWithCapture_run (ch : channels) (pc : place) (events : list event)
  : option (channels * place) :=
  match events with
  | [] => Some (ch, pc)
  | ev :: rest =>
      '(ch', pc') ← copyWithCapture_step ch pc ev;
      copyWithCapture_run ch' pc' rest
  end.

(** A relay that has left [copyWithCapture], by a [return] or by a panic. *)
Definition finished (pc : place) : bool :=
  match pc with
  | Returned | Panicked => true
  | _ => false
  end.

(** The steps a relay has before it at most, from a place, once one of the
    stop channels is closed: the read or the write it is in, the check, the
    close. *)
Definition steps_left (pc : place) : nat :=
  match pc with
  | AtRead => 4
  | AtWrite => 3
  | AtCheck => 2
  | AtSelect | AtClose => 1
  | Returned | Panicked => 0
  end.

(** How the closes of [done] stand with the places of the two relays. *)
Definition closes_ok (c : connection) : Prop :=
  (connDone (chans c) = false <-> closes (chans c) = 0%nat) /\
  (closes (chans c) <= (if finished (clientToServer c) then 1 else 0)
                       + (if finished (serverToClient c) then 1 else 0))%nat /\
  (clientToServer c = Panicked \/ serverToClient c = Panicked
   <-> closes (chans c) = 2%nat) /\
  ~ (clientToServer c = Panicked /\ serverToClient c = Panicked).

Definition GetConnectionCount (p : ProxyInstance) : Z := connections p.

(** What holds of a packet [captureData] has put into a buffer of budget
    [budget]: [Bytes] is the length of the chunk, of which the raw data keeps
    what the budget allows. *)
Definition packet_ok (budget : Z) (q : CapturedPacket) : Prop :=
  Go.len (RawData q) = Z.min (Bytes q) budget /\
  (length (AsciiStrings q) <= 10)%nat.

(** What holds of an instance registered under [listenPort]. *)
Definition instance_ok (listenPort : Z) (p : ProxyInstance) : Prop :=
  Done p = false /\
  ListenPort p = listenPort /\
  exists ps,
    rep (Buffer p) ps /\
    Forall (packet_ok (maxSize (Buffer p))) ps /\
    total ps <= BytesCaptured (Stats p) /\
    total ps <= maxSize (Buffer p).

Definition registry_ok (pm : ProxyManager) : Prop :=
  map_Forall instance_ok (proxies pm).

End Proxy.

(** ** cmd/tools.go: the tool handlers *)

Module Tools.

Import Buffer Proxy.
Local Open Scope Z_scope.

(** A value of type [interface{}] in an argument set, by its dynamic type. *)
Inductive value :=
  | VFloat64 (v : Go.float64)
  | VInt (v : Z)
  | VInt64 (v : Z)
  | VString (v : string)
  | VBool (v : bool)
  | VOther.              (* nil, or a value of any other type *)

(** [request.Params.Arguments]: a [map[string]interface{}], or anything
    else. *)
Inductive arguments :=
  | ArgsMap (args : gmap string value)
  | ArgsOther.

(** The value a handler marshals into its result. *)
#[warnings="-register-all"]
Inductive json :=
  | JString (s : string)
  | JInt (n : Z)
  | JStrings (l : list string)
  | JArray (l : list json)
  | JObject (fields : list (string * json)).

(** [mcp.NewToolResultText(string(jsonBytes))]: the result carries the text of
    the marshalled value; the record keeps the value. *)
Record CallToolResult := NewToolResultText { payload : json }.

Definition getInt (args : gmap string value) (key : string) : Z * bool :=
  match args !! key with
  | None => (0, false)
  | Some (VFloat64 v) => (Go.int_of_float64 v, true)
  | Some (VInt v) => (v, true)
  | Some (VInt64 v) => (v, true)
  | Some _ => (0, false)
  end.

Definition getString (args : gmap string value) (key : string) : string * bool :=
  match args !! key with
  | None => ("", false)
  | Some (VString str) => (str, true)
  | Some _ => ("", false)
  end.

Section Handlers.

Variable net_Listen : string -> string -> Z + string.
Variable now : Z.
(** [t.Format("2006-01-02T15:04:05.000Z")] and [fmt.Sprintf("%.1f%%", usage)]. *)
Variable formatTime : Z -> string.
Variable formatPercent : Go.float64 -> string.

(** [fmt.Sprintf("%s:%d", host, port)] *)
Definition hostPort (host : string) (port : Z) : string :=
  host +:+ ":" +:+ Go.fmt_d port.

(** [StartProxyHandler.Execute]: the registry after the call, the result and
    the error. *)
Definition StartProxyHandler_Execute (manager : ProxyManager) (request : arguments)
  : ProxyManager * (option CallToolResult * option error) :=
  match request with
  | ArgsOther => (manager, (None, Some "invalid arguments format"))
  | ArgsMap args =>
      let '(listenPort, ok) := getInt args "listen_port" in
      if negb ok then (manager, (None, Some "listen_port is required")) else
      let '(forwardHost, _) := getString args "forward_host" in
      let forwardHost := if bool_decide (forwardHost = "") then "localhost" else forwardHost in
      let '(forwardPort, ok) := getInt args "forward_port" in
      if negb ok then (manager, (None, Some "forward_port is required")) else
      let '(captureLimit, _) := getInt args "capture_limit" in
      let captureLimit := if bool_decide (captureLimit <= 0) then 10 * 1024 * 1024
                          else captureLimit in
      let '(manager, err) :=
        StartProxy net_Listen now manager listenPort forwardHost forwardPort captureLimit in
      match err with
      | Some msg =>
          (manager, (Some (NewToolResultText (JObject [("error", JString msg)])), None))
      | None =>
          (manager,
           (Some (NewToolResultText (JObject
              [("status", JString "started");
               ("listen_port", JInt listenPort);
               ("forward_to", JString (hostPort forwardHost forwardPort))])),
            None))
      end
  end.

(** The entry of one capture in the output of [get_proxy_output]; reading a
    field through a [nil] pointer panics. *)
Definition captureEntry (capture : option CapturedPacket) : option json :=
  capture ← capture;
  Some (JObject
    [("timestamp", JString (formatTime (Timestamp capture)));
     ("direction", JString (Direction capture));
     ("bytes", JInt (Bytes capture));
     ("hex_dump", JString (HexDump capture));
     ("ascii_strings", JStrings (AsciiStrings capture));
     ("detected_protocol", JString (DetectedProtocol capture))]).

(** The body of the loop over the proxies: the entry of the proxy, and the
    proxy after the pass. *)
Definition proxyEntry (clearBuffer : bool) (proxy : ProxyInstance)
  : option (json * ProxyInstance) :=
  captures ← GetAll (Buffer proxy);
  captureData ← mapM captureEntry captures;
  let '(buffer, (_, totalBytes, usage)) := GetStats (Buffer proxy) in
  let bytesCaptured := BytesCaptured (Stats proxy) in
  let proxyResult := JObject
    [("listen_port", JInt (ListenPort proxy));
     ("forward_to", JString (hostPort (ForwardHost proxy) (ForwardPort proxy)));
     ("captures", JArray captureData);
     ("total_bytes_captured", JInt bytesCaptured);
     ("buffer_usage", JString (formatPercent usage));
     ("buffer_bytes", JInt totalBytes)] in
  let buffer := if clearBuffer then Clear buffer else buffer in
  Some (proxyResult,
        {| ListenPort := ListenPort proxy;
           ForwardHost := ForwardHost proxy;
           ForwardPort := ForwardPort proxy;
           Listener := Listener proxy;
           Buffer := buffer;
           Stats := Stats proxy;
           Done := Done proxy;
           StartedAt := StartedAt proxy;
           connections := connections proxy |}).

(** The loop over the proxies.  The handler works on pointers: what it does
    to an instance shows in the registry, under the key of the instance. *)
Fixpoint proxyEntries (clearBuffer : bool) (manager : gmap Z ProxyInstance)
    (todo : list (Z * ProxyInstance)) : option (gmap Z ProxyInstance * list json) :=
  match todo with
  | [] => Some (manager, [])
  | (port, proxy) :: rest =>
      '(entry, proxy') ← proxyEntry clearBuffer proxy;
      '(manager, entries) ← proxyEntries clearBuffer (<[port := proxy']> manager) rest;
      Some (manager, entry :: entries)
  end.

(** [GetProxyOutputHandler.Execute]; [None] is a panic. *)
Definition GetProxyOutputHandler_Execute (manager : ProxyManager) (request : arguments)
  : option (ProxyManager * (option CallToolResult * option error)) :=
  let args := match request with ArgsMap args => args | ArgsOther => ∅ end in
  let '(listenPort, hasPort) := getInt args "listen_port" in
  let clearBuffer := match args !! "clear_buffer" with
                     | Some (VBool cb) => cb
                     | _ => true
                     end in
  let collected :=
    if hasPort then
      match GetProxy manager listenPort with
      | None => inl ("no proxy running on port " +:+ Go.fmt_d listenPort)
      | Some proxy => inr [(listenPort, proxy)]
      end
    else inr (GetAllProxies manager) in
  match collected with
  | inl msg =>
      Some (manager, (Some (NewToolResultText (JObject [("error", JString msg)])), None))
  | inr todo =>
      '(proxies', proxyResults) ← proxyEntries clearBuffer (proxies manager) todo;
      Some ({| proxies := proxies' |},
            (Some (NewToolResultText (JObject [("proxies", JArray proxyResults)])), None))
  end.

(** [StopProxyHandler.Execute]; [None] is a panic. *)
Definition StopProxyHandler_Execute (manager : ProxyManager) (request : arguments)
  : option (ProxyManager * (option CallToolResult * option error)) :=
  match request with
  | ArgsOther => Some (manager, (None, Some "invalid arguments format"))
  | ArgsMap args =>
      let '(listenPort, ok) := getInt args "listen_port" in
      if negb ok then Some (manager, (None, Some "listen_port is required")) else
      '(manager, (bytesCaptured, err)) ← StopProxy manager listenPort;
      match err with
      | Some msg =>
          Some (manager, (Some (NewToolResultText (JObject [("error", JString msg)])), None))
      | None =>
          Some (manager,
                (Some (NewToolResultText (JObject
                   [("status", JString "stopped");
                    ("listen_port", JInt listenPort);
                    ("bytes_captured", JInt bytesCaptured)])),
                 None))
      end
  end.

End Handlers.

(** Argument sets as a client sends them: the numbers of a JSON text arrive
    as [float64]. *)
Definition stopArgs : gmap string value :=
  {[ "listen_port" := VFloat64 (Go.float64_of_int 8080) ]}.

Definition startArgs : gmap string value :=
  {[ "listen_port" := VFloat64 (Go.float64_of_int 8080);
     "forward_port" := VFloat64 (Go.float64_of_int 3000);
     "capture_limit" := VFloat64 (Go.float64_of_int (-5)) ]}.

(** *** What the design document says of the results *)

(** A transport-level failure: no result, and an error. *)
Definition transport_failure (r : option CallToolResult * option error) : Prop :=
  r.1 = None /\ is_Some r.2.

(** A result whose payload is the error message and nothing else, and no
    error for the transport. *)
Definition error_result (msg : string) : option CallToolResult * option error :=
  (Some (NewToolResultText (JObject [("error", JString msg)])), None).

(** Every registered instance has a buffer in a state of the ring. *)
Definition buffers_ok (manager : ProxyManager) : Prop :=
  map_Forall (fun _ proxy => exists ps, rep (Buffer proxy) ps) (proxies manager).

(** The instance after [proxy.Buffer.Clear()]. *)
Definition cleared (proxy : ProxyInstance) : ProxyInstance :=
  {| ListenPort := ListenPort proxy;
     ForwardHost := ForwardHost proxy;
     ForwardPort := ForwardPort proxy;
     Listener := Listener proxy;
     Buffer := Clear (Buffer proxy);
     Stats := Stats proxy;
     Done := Done proxy;
     StartedAt := StartedAt proxy;
     connections := connections proxy |}.

(** *** [ListProxiesHandler.Execute] and the life of the server *)

Section Server.

Variable formatTime : Z -> string.
Variable formatPercent : Go.float64 -> string.
Variable hex_Dump : list byte -> string.

(** The entry of one proxy in the output of [list_proxies]. *)
Definition listEntry (proxy : ProxyInstance) : json :=
  let bytesCaptured := BytesCaptured (Stats proxy) in
  let totalConnections := Connections (Stats proxy) in
  let activeConnections := GetConnectionCount proxy in
  let '(_, (_, _, usage)) := GetStats (Buffer proxy) in
  JObject
    [("listen_port", JInt (ListenPort proxy));
     ("forward_to", JString (hostPort (ForwardHost proxy) (ForwardPort proxy)));
     ("status", JString "running");
     ("active_connections", JInt activeConnections);
     ("total_connections", JInt totalConnections);
     ("bytes_captured", JInt bytesCaptured);
     ("buffer_usage", JString (formatPercent usage));
     ("started_at", JString (formatTime (StartedAt proxy)))].

(** [ListProxiesHandler.Execute]: it reads the request not at all, and
    writes nothing. *)
Definition ListProxiesHandler_Execute (manager : ProxyManager) (request : arguments)
  : option CallToolResult * option error :=
  let proxies := (GetAllProxies manager).*2 in
  let proxyList := listEntry <$> proxies in
  (Some (NewToolResultText (JObject [("proxies", JArray proxyList)])), None).

(** What happens to the server: the invocations of its four tools, each
    start with what the operating system answers it; the chunks its relays
    capture; and [StopAll]. *)
Inductive serverEvent :=
  | InvokeStart (net_Listen : string -> string -> Z + string) (now : Z)
                (request : arguments)
  | InvokeGetOutput (request : arguments)
  | InvokeStop (request : arguments)
  | InvokeList (request : arguments)
  | Captured (listenPort now : Z) (data : list byte) (direction : string)
  | StoppedAll.

(** One event: the registry after it, and what an invocation returns. *)
Definition serverStep (manager : ProxyManager) (ev : serverEvent)
  : option (ProxyManager * option (option CallToolResult * option error)) :=
  match ev with
  | InvokeStart net_Listen now request =>
      let '(manager, r) := StartProxyHandler_Execute net_Listen now manager request in
      Some (manager, Some r)
  | InvokeGetOutput request =>
      '(manager, r) ← GetProxyOutputHandler_Execute formatTime formatPercent manager request;
      Some (manager, Some r)
  | InvokeStop request =>
      '(manager, r) ← StopProxyHandler_Execute manager request;
      Some (manager, Some r)
  | InvokeList request =>
      Some (manager, Some (ListProxiesHandler_Execute manager request))
  | Captured listenPort now data direction =>
      manager ← captureOn hex_Dump manager listenPort now data direction;
      Some (manager, None)
  | StoppedAll =>
      manager ← StopAll manager;
      Some (manager, None)
  end.

Fixpoint serverRun (manager : ProxyManager) (events : list serverEvent)
  : option ProxyManager :=
  match events with
  | [] => Some manager
  | ev :: rest => '(manager, _) ← serverStep manager ev; serverRun manager rest
  end.

End Server.

End Tools.

(** * Proofs *)

(** ** Facts about the slice operations *)

Section GoFacts.
Local Open Scope Z_scope.
Context {A : Type}.
Implicit Types (s dst src : list A).

Lemma len_nonneg s : 0 <= Go.len s.
Proof. unfold Go.len. lia. Qed.

Lemma len_app s1 s2 : Go.len (s1 ++ s2) = Go.len s1 + Go.len s2.
Proof. unfold Go.len. rewrite length_app. lia. Qed.

Lemma len_make (zero : A) n : 0 <= n -> Go.len (Go.make zero n) = n.
Proof. intros Hn. unfold Go.len, Go.make. rewrite length_replicate. lia. Qed.

Lemma index_in_range s i :
  0 <= i < Go.len s -> Go.index s i = s !! Z.to_nat i.
Proof. intros Hi. unfold Go.index. by rewrite bool_decide_eq_true_2. Qed.

Lemma store_in_range s i x :
  0 <= i < Go.len s -> Go.store s i x = Some (<[Z.to_nat i := x]> s).
Proof. intros Hi. unfold Go.store. by rewrite bool_decide_eq_true_2. Qed.

Lemma slice_in_range s lo hi :
  0 <= lo <= hi -> hi <= Go.len s ->
  Go.slice s lo hi = Some (take (Z.to_nat (hi - lo)) (drop (Z.to_nat lo) s)).
Proof. intros ? ?. unfold Go.slice. by rewrite bool_decide_eq_true_2. Qed.

Lemma slice_from s lo :
  0 <= lo <= Go.len s -> Go.slice s lo (Go.len s) = Some (drop (Z.to_nat lo) s).
Proof.
  intros Hlo. rewrite slice_in_range by lia. f_equal.
  apply take_ge. rewrite length_drop. unfold Go.len in *. lia.
Qed.

Lemma slice_to s hi :
  0 <= hi <= Go.len s -> Go.slice s 0 hi = Some (take (Z.to_nat hi) s).
Proof.
  intros Hhi. rewrite slice_in_range by lia.
  by rewrite Z.sub_0_r, drop_0.
Qed.

Lemma rem_pos a b : 0 <= a -> 0 < b -> Go.rem a b = Some (a mod b).
Proof.
  intros Ha Hb. unfold Go.rem. rewrite bool_decide_eq_false_2 by lia.
  by rewrite Z.rem_mod_nonneg by lia.
Qed.

(** Copying a source that fits into a fresh destination. *)
Lemma copy_fits dst src :
  (length src <= length dst)%nat ->
  Go.copy dst src = (src ++ drop (length src) dst, Go.len src).
Proof.
  intros Hle. unfold Go.copy. f_equal.
  - by rewrite take_ge.
  - unfold Go.len. lia.
Qed.

(** The two-part copy of [grow] and [GetAll]: the slots from [t] to the end
    of [s], then the slots before [h], land at the front of [dst]. *)
Lemma copy_two_parts dst s t h :
  0 <= t <= Go.len s -> 0 <= h <= Go.len s ->
  Go.len s - t + h <= Go.len dst ->
  (src1 ← Go.slice s t (Go.len s);
   let '(r, n) := Go.copy dst src1 in
   src2 ← Go.slice s 0 h;
   rest ← Go.slice r n (Go.len r);
   Some (take (Z.to_nat n) r ++ (Go.copy rest src2).1))
  = Some (drop (Z.to_nat t) s ++ take (Z.to_nat h) s
          ++ drop (Z.to_nat (Go.len s - t + h)) dst).
Proof.
  intros Ht Hh Hfit.
  rewrite slice_from by lia. cbn [mbind option_bind].
  rewrite copy_fits by (unfold Go.len in *; rewrite length_drop; lia).
  rewrite slice_to by lia. cbn [mbind option_bind].
  rewrite slice_from.
  2:{ split; [apply len_nonneg|]. rewrite len_app. pose proof (len_nonneg (drop (length (drop (Z.to_nat t) s)) dst)). lia. }
  cbn [mbind option_bind fst]. f_equal.
  assert (Hn : Z.to_nat (Go.len (drop (Z.to_nat t) s)) = length (drop (Z.to_nat t) s)).
  { unfold Go.len. lia. }
  rewrite Hn, take_app_length, drop_app_length. f_equal.
  unfold Go.copy, Go.len in *. cbn [fst].
  rewrite take_ge.
  2:{ rewrite length_take, !length_drop. lia. }
  f_equal. rewrite drop_drop. f_equal.
  rewrite length_take, length_drop. lia.
Qed.

End GoFacts.

(** ** The capture buffer *)

Section BufferFacts.
Import Buffer.
Local Open Scope Z_scope.

Lemma take_rotate_nowrap {A} (l : list A) (t c : nat) :
  (t < length l)%nat -> (t + c <= length l)%nat ->
  take c (rotate t l) = take c (drop t l).
Proof.
  intros Ht Hc. unfold rotate. rewrite Nat.mod_small by done.
  apply take_app_le. rewrite length_drop. lia.
Qed.

Lemma take_rotate_wrap {A} (l : list A) (t c : nat) :
  (t < length l)%nat -> (length l <= t + c)%nat -> (c <= length l)%nat ->
  take c (rotate t l) = drop t l ++ take (t + c - length l) l.
Proof.
  intros Ht Hw Hc. unfold rotate. rewrite Nat.mod_small by done.
  rewrite take_app_ge by (rewrite length_drop; lia). f_equal.
  rewrite length_drop, take_take. f_equal. lia.
Qed.

Lemma total_nonneg ps : 0 <= total ps.
Proof.
  induction ps as [|p ps IH]; simpl; [lia|].
  pose proof (len_nonneg (RawData p)). lia.
Qed.

Lemma total_app ps qs : total (ps ++ qs) = total ps + total qs.
Proof. induction ps as [|p ps IH]; simpl; lia. Qed.

Lemma rep_new m : rep (NewRingBuffer m) [].
Proof.
  assert (Hlen : Go.len (Go.make (A:=option CapturedPacket) None initialCapacity) = 1000).
  { apply len_make. unfold initialCapacity. lia. }
  split; unfold NewRingBuffer, window; cbn [maxSize tail count head data currentSize];
    rewrite ?Hlen; try done.
  all: try (case_bool_decide; unfold defaultMaxSize; lia).
Qed.

(** The head slot in terms of the tail and the count. *)
Lemma rep_head_cases rb ps :
  rep rb ps ->
  (tail rb + count rb < Go.len (data rb) /\ head rb = tail rb + count rb) \/
  (Go.len (data rb) <= tail rb + count rb /\
   head rb = tail rb + count rb - Go.len (data rb)).
Proof.
  intros [? ? Hc ? Hh ? ?]. pose proof (len_nonneg ps).
  destruct (Z_lt_le_dec (tail rb + count rb) (Go.len (data rb))) as [Hlt|Hge].
  - left. split; [done|]. rewrite Hh. apply Z.mod_small. lia.
  - right. split; [done|]. rewrite Hh.
    rewrite <-(Z.mod_small (tail rb + count rb - Go.len (data rb)) (Go.len (data rb))) by lia.
    rewrite <-(Z_mod_plus_full _ (-1)). f_equal; lia.
Qed.

Lemma GetAll_rep rb ps : rep rb ps -> GetAll rb = Some (Some <$> ps).
Proof.
  intros Hrep. pose proof (rep_head_cases _ _ Hrep) as Hhead.
  destruct Hrep as [? ? Hc ? Hh Hw ?]. pose proof (len_nonneg ps).
  unfold GetAll. case_bool_decide as Hz.
  { destruct ps; [done|]. unfold Go.len in *. simpl in *. lia. }
  rewrite (bool_decide_eq_false_2 (count rb < 0)) by lia.
  rewrite <-Hw. unfold window.
  assert (Hmk : length (Go.make (A:=option CapturedPacket) None (count rb))
                = Z.to_nat (count rb)).
  { unfold Go.make. apply length_replicate. }
  case_bool_decide as Hth.
  - destruct Hhead as [[Hlt Hhd]|[Hge Hhd]]; [|lia].
    rewrite slice_in_range by lia. cbn [mbind option_bind].
    rewrite copy_fits by (rewrite Hmk, length_take; lia).
    cbn [fst]. rewrite (drop_ge (Go.make _ _)).
    2:{ rewrite Hmk, length_take, length_drop. unfold Go.len in *. lia. }
    rewrite app_nil_r, take_rotate_nowrap by (unfold Go.len in *; lia).
    f_equal. f_equal. lia.
  - destruct Hhead as [[Hlt Hhd]|[Hge Hhd]]; [lia|].
    rewrite copy_two_parts by (rewrite ?len_make; lia).
    f_equal. rewrite (drop_ge (Go.make _ _)) by (rewrite Hmk; lia).
    rewrite app_nil_r, take_rotate_wrap by (unfold Go.len in *; lia).
    f_equal. f_equal. unfold Go.len in *. lia.
Qed.

Lemma length_window rb :
  0 <= count rb <= Go.len (data rb) -> length (window rb) = Z.to_nat (count rb).
Proof.
  intros Hc. unfold window. rewrite length_take, length_rotate.
  unfold Go.len in *. lia.
Qed.

Lemma window_lookup rb (i : nat) :
  0 <= tail rb -> Z.of_nat i < count rb -> count rb <= Go.len (data rb) ->
  window rb !! i = data rb !! Z.to_nat ((tail rb + Z.of_nat i) mod Go.len (data rb)).
Proof.
  intros Ht Hi Hc. unfold window.
  rewrite lookup_take_lt by lia.
  rewrite lookup_rotate_r by (unfold Go.len in *; lia).
  unfold rotate_nat_add, Go.len. by rewrite Z2Nat.id.
Qed.

Lemma evict1_rep rb p ps :
  rep rb (p :: ps) ->
  exists rb', evict1 rb = Some rb' /\ rep rb' ps /\ maxSize rb' = maxSize rb.
Proof.
  intros [Hb Ht Hc Hfit Hh Hw Hsz].
  assert (Hcount : count rb = Go.len ps + 1).
  { rewrite Hc. unfold Go.len. simpl. lia. }
  pose proof (len_nonneg ps) as Hps.
  assert (Hslot : data rb !! Z.to_nat (tail rb) = Some (Some p)).
  { pose proof (window_lookup rb 0) as H0. rewrite Hw in H0. simpl in H0.
    rewrite H0 by lia. f_equal. rewrite Z.add_0_r, Z.mod_small; lia. }
  unfold evict1. rewrite index_in_range, Hslot by done.
  cbn [mbind option_bind]. rewrite rem_pos by lia. cbn [mbind option_bind].
  eexists. split; [done|]. split; [|done].
  assert (Hmod : 0 <= (tail rb + 1) mod Go.len (data rb) < Go.len (data rb)).
  { apply Z.mod_pos_bound. lia. }
  split; cbn [maxSize tail count head data currentSize]; try lia.
  - rewrite Hh, Zplus_mod_idemp_l. f_equal. lia.
  - apply list_eq_same_length with (Z.to_nat (Go.len ps)).
    + rewrite length_fmap. unfold Go.len. lia.
    + rewrite length_window; cbn [count data]; lia.
    + intros i x y Hi Hx Hy.
      rewrite window_lookup in Hx by (cbn [tail count data]; lia).
      cbn [tail data] in Hx. rewrite Zplus_mod_idemp_l in Hx.
      assert (Hsucc : (Some <$> p :: ps) !! S i = Some y) by done.
      rewrite <-Hw, window_lookup in Hsucc by lia.
      replace (tail rb + Z.of_nat (S i)) with (tail rb + 1 + Z.of_nat i) in Hsucc by lia.
      congruence.
  - rewrite Hsz. simpl. lia.
Qed.

Lemma evict_rep packetSize fuel ps : forall rb,
  rep rb ps -> (length ps <= fuel)%nat ->
  exists rb', evict fuel packetSize rb = Some rb' /\
              rep rb' (evict_oldest (maxSize rb) packetSize ps) /\
              maxSize rb' = maxSize rb.
Proof.
  revert fuel. induction ps as [|p ps IH]; intros fuel rb Hrep Hfuel.
  - exists rb. split; [|done].
    destruct Hrep as [_ _ Hc _ _ _ _].
    destruct fuel; simpl; rewrite (bool_decide_eq_false_2 (count rb > 0)),
      andb_false_r; first [done | rewrite Hc; unfold Go.len; simpl; lia].
  - assert (Hpos : count rb > 0).
    { destruct Hrep as [_ _ Hc _ _ _ _]. rewrite Hc. unfold Go.len. simpl. lia. }
    assert (Hsz : currentSize rb = total (p :: ps)) by apply Hrep.
    destruct fuel as [|fuel]; [simpl in Hfuel; lia|].
    cbn [evict evict_oldest]. rewrite <-Hsz.
    rewrite (bool_decide_eq_true_2 (count rb > 0)), andb_true_r by done.
    case_bool_decide as Hover; [|by exists rb].
    destruct (evict1_rep _ _ _ Hrep) as (rb1 & -> & Hrep1 & Hmax1).
    cbn [mbind option_bind].
    destruct (IH fuel rb1 Hrep1) as (rb' & Hev & Hrep' & Hmax');
      [simpl in Hfuel; lia|].
    exists rb'. rewrite <-Hmax1. split; [done|]. split; [done|congruence].
Qed.

Lemma grow_rep rb ps :
  rep rb ps -> count rb = Go.len (data rb) ->
  exists rb', grow rb = Some rb' /\ rep rb' ps /\ maxSize rb' = maxSize rb /\
              count rb' < Go.len (data rb').
Proof.
  intros Hrep Hfull. pose proof (rep_head_cases _ _ Hrep) as Hhead.
  destruct Hrep as [Hb Ht Hc Hfit Hh Hw Hsz].
  destruct Hhead as [[Hlt Hhd]|[Hge Hhd]]; [lia|].
  pose proof (len_nonneg (data rb)) as Hlen.
  assert (Hmk : Go.len (Go.make (A:=option CapturedPacket) None (Go.len (data rb) * 2))
                = Go.len (data rb) * 2) by (apply len_make; lia).
  unfold grow. rewrite bool_decide_eq_false_2, bool_decide_eq_true_2 by lia.
  rewrite copy_two_parts by lia. cbn [mbind option_bind].
  eexists. split; [done|].
  assert (Hnew : forall rest : list (option CapturedPacket),
    drop (Z.to_nat (tail rb)) (data rb) ++ take (Z.to_nat (head rb)) (data rb) ++ rest
    = window rb ++ rest).
  { intros rest. rewrite app_assoc. f_equal. unfold window.
    rewrite take_rotate_wrap by (unfold Go.len in *; lia).
    f_equal. f_equal. unfold Go.len in *. lia. }
  rewrite Hnew.
  assert (Hwl : Go.len (window rb) = Go.len (data rb)).
  { unfold Go.len at 1. rewrite length_window by lia. lia. }
  assert (Hrest : Go.len (drop (Z.to_nat (Go.len (data rb) - tail rb + head rb))
                    (Go.make (A:=option CapturedPacket) None (Go.len (data rb) * 2)))
                  = Go.len (data rb)).
  { unfold Go.len in *. rewrite length_drop. lia. }
  split; [|split; [done|]]; cbn [maxSize tail count head data currentSize];
    rewrite ?len_app, ?Hwl, ?Hrest; try lia.
  split; cbn [maxSize tail count head data currentSize];
    rewrite ?len_app, ?Hwl, ?Hrest; try lia.
  - rewrite Z.add_0_l, Z.mod_small; lia.
  - unfold window at 1. cbn [tail count data].
    rewrite take_rotate_nowrap.
    2:{ rewrite length_app. unfold Go.len in *. lia. }
    2:{ rewrite length_app. unfold Go.len in *. lia. }
    rewrite drop_0, take_app_length'; [done|]. unfold Go.len in *. lia.
Qed.

Lemma truncate_spec budget p :
  0 <= budget ->
  truncate budget p = Some (truncated budget p, Go.len (RawData (truncated budget p))).
Proof.
  intros Hb. unfold truncate, truncated. case_bool_decide as Hbig; [|done].
  rewrite slice_to by lia. cbn [mbind option_bind RawData].
  do 2 f_equal. unfold Go.len in *. rewrite length_take. lia.
Qed.

Lemma truncated_size budget p :
  0 <= budget -> Go.len (RawData (truncated budget p)) <= budget.
Proof.
  intros Hb. unfold truncated. case_bool_decide as Hbig; [|lia].
  cbn [RawData]. unfold Go.len in *. rewrite length_take. lia.
Qed.

(** The last four statements of [Add]: the packet goes into the head slot. *)
Lemma push_rep rb ps p :
  rep rb ps -> count rb < Go.len (data rb) ->
  exists data' head',
    Go.store (data rb) (head rb) (Some p) = Some data' /\
    Go.rem (head rb + 1) (Go.len data') = Some head' /\
    rep {| data := data';
           maxSize := maxSize rb;
           currentSize := currentSize rb + Go.len (RawData p);
           head := head';
           tail := tail rb;
           count := count rb + 1 |} (ps ++ [p]).
Proof.
  intros Hrep Hroom. destruct Hrep as [Hb Ht Hc Hfit Hh Hw Hsz].
  pose proof (len_nonneg ps) as Hps.
  assert (Hhr : 0 <= head rb < Go.len (data rb)).
  { rewrite Hh. apply Z.mod_pos_bound. lia. }
  rewrite store_in_range by done.
  assert (Hlen' : Go.len (<[Z.to_nat (head rb) := Some p]> (data rb)) = Go.len (data rb)).
  { unfold Go.len. by rewrite length_insert. }
  eexists _, _. split; [done|]. rewrite Hlen', rem_pos by lia.
  split; [done|].
  split; cbn [maxSize tail count head data currentSize]; rewrite ?Hlen'; try lia.
  - rewrite len_app. unfold Go.len at 2. simpl. lia.
  - rewrite Hh, Zplus_mod_idemp_l. f_equal. lia.
  - unfold window. cbn [tail count data].
    assert (Hidx : Z.to_nat (head rb)
                   = rotate_nat_add (Z.to_nat (tail rb)) (Z.to_nat (count rb)) (length (data rb))).
    { unfold rotate_nat_add. rewrite Hh. unfold Go.len. f_equal. f_equal. lia. }
    rewrite Hidx, rotate_insert_l by (unfold Go.len in *; lia).
    replace (Z.to_nat (count rb + 1)) with (S (Z.to_nat (count rb))) by lia.
    erewrite take_S_r.
    2:{ apply list_lookup_insert_eq. rewrite length_rotate. unfold Go.len in *. lia. }
    rewrite take_insert_ge by lia. fold (window rb). rewrite Hw.
    by rewrite fmap_app.
  - rewrite total_app, Hsz. simpl. lia.
Qed.

Lemma Add_rep rb ps p :
  rep rb ps ->
  exists rb', Add rb p = Some rb' /\ rep rb' (enqueue (maxSize rb) ps p) /\
              maxSize rb' = maxSize rb.
Proof.
  intros Hrep. pose proof (rep_budget _ _ Hrep) as Hb.
  unfold Add, enqueue. rewrite truncate_spec by lia. cbn [mbind option_bind].
  set (p' := truncated (maxSize rb) p).
  destruct (evict_rep (Go.len (RawData p')) (Z.to_nat (count rb)) ps rb Hrep)
    as (rb1 & -> & Hrep1 & Hmax1).
  { rewrite (rep_count _ _ Hrep). unfold Go.len. lia. }
  cbn [mbind option_bind].
  set (ps1 := evict_oldest (maxSize rb) (Go.len (RawData p')) ps) in *.
  assert (Hgrown : exists rb2,
    (if bool_decide (count rb1 = Go.len (data rb1)) then grow rb1 else Some rb1) = Some rb2 /\
    rep rb2 ps1 /\ maxSize rb2 = maxSize rb /\ count rb2 < Go.len (data rb2)).
  { case_bool_decide as Hfull.
    - destruct (grow_rep _ _ Hrep1 Hfull) as (rb2 & Hg & Hrep2 & Hmax2 & Hroom).
      exists rb2. split; [done|]. split; [done|]. split; [congruence|done].
    - exists rb1. pose proof (rep_fit _ _ Hrep1).
      split; [done|]. split; [done|]. split; [done|lia]. }
  destruct Hgrown as (rb2 & -> & Hrep2 & Hmax2 & Hroom).
  cbn [mbind option_bind].
  destruct (push_rep rb2 ps1 p' Hrep2 Hroom) as (data' & head' & -> & Hrem & Hrep').
  cbn [mbind option_bind]. rewrite Hrem. cbn [mbind option_bind].
  eexists. split; [done|]. split; [done|done].
Qed.

Lemma Clear_rep rb ps : rep rb ps -> rep (Clear rb) [].
Proof.
  intros [Hb Ht Hc Hfit Hh Hw Hsz].
  assert (Hlen : Go.len ((fun _ => None) <$> data rb : list (option CapturedPacket))
                 = Go.len (data rb)).
  { unfold Go.len. by rewrite length_fmap. }
  split; unfold Clear, window; cbn [maxSize tail count head data currentSize];
    rewrite ?Hlen; try done; try lia.
Qed.

Lemma perform_rep rb ps c :
  rep rb ps ->
  exists rb', perform rb c = Some rb' /\ rep rb' (effect (maxSize rb) ps c) /\
              maxSize rb' = maxSize rb.
Proof.
  intros Hrep. destruct c as [p|]; [by apply Add_rep|].
  exists (Clear rb). split; [done|]. split; [|done]. by eapply Clear_rep.
Qed.

(** The sequence of retained packets after a run of calls. *)
Lemma performAll_rep calls : forall rb ps,
  rep rb ps ->
  exists rb', performAll rb calls = Some rb' /\
              rep rb' (foldl (effect (maxSize rb)) ps calls) /\
              maxSize rb' = maxSize rb.
Proof.
  induction calls as [|c calls IH]; intros rb ps Hrep.
  - by exists rb.
  - destruct (perform_rep rb ps c Hrep) as (rb1 & Hadd & Hrep1 & Hmax1).
    cbn [performAll foldl]. rewrite Hadd. cbn [mbind option_bind].
    destruct (IH rb1 _ Hrep1) as (rb' & Hall & Hrep' & Hmax').
    rewrite Hmax1 in Hrep', Hmax'. by exists rb'.
Qed.

(** The abstract queue stays within the budget. *)
Lemma evict_oldest_fits budget packetSize ps :
  0 <= packetSize <= budget ->
  total (evict_oldest budget packetSize ps) + packetSize <= budget.
Proof.
  intros Hsz. induction ps as [|q ps IH]; [simpl; lia|].
  cbn [evict_oldest]. case_bool_decide; [done|lia].
Qed.

Lemma enqueue_fits budget ps p :
  0 <= budget -> total (enqueue budget ps p) <= budget.
Proof.
  intros Hb. unfold enqueue. rewrite total_app. simpl.
  pose proof (truncated_size budget p Hb).
  pose proof (len_nonneg (RawData (truncated budget p))).
  pose proof (evict_oldest_fits budget (Go.len (RawData (truncated budget p))) ps).
  lia.
Qed.

Lemma foldl_effect_fits budget calls : forall ps,
  0 <= budget -> total ps <= budget ->
  total (foldl (effect budget) ps calls) <= budget.
Proof.
  induction calls as [|c calls IH]; intros ps Hb Hps; [done|].
  simpl. apply IH; [done|]. destruct c; [by apply enqueue_fits|done].
Qed.

(** A packet of at least the budget leaves nothing else of positive size. *)
Lemma enqueue_oversized budget ps p :
  0 <= budget -> budget <= Go.len (RawData p) ->
  RawData (truncated budget p) = take (Z.to_nat budget) (RawData p) /\
  Go.len (RawData (truncated budget p)) = budget /\
  total (enqueue budget ps p) = budget.
Proof.
  intros Hb Hbig.
  assert (Hraw : RawData (truncated budget p) = take (Z.to_nat budget) (RawData p)).
  { unfold truncated. case_bool_decide as Hgt; [done|].
    symmetry. apply take_ge. unfold Go.len in *. lia. }
  assert (Hlen : Go.len (RawData (truncated budget p)) = budget).
  { rewrite Hraw. unfold Go.len in *. rewrite length_take. lia. }
  split; [done|]. split; [done|].
  unfold enqueue. rewrite total_app, Hlen. simpl.
  pose proof (evict_oldest_fits budget budget ps).
  pose proof (total_nonneg (evict_oldest budget budget ps)). lia.
Qed.

(** C1. For a buffer created with a budget [B > 0], every run of [Add]
    calls (and of [Clear] calls between them) returns, and after it the
    packets [GetAll] gives have at most [B] raw bytes in total, which is also
    what [currentSize] says.  When the next packet has at least [B] raw
    bytes, [Add] stores it with its raw data cut to the first [B] bytes, and
    the total is then exactly [B]. *)
Theorem Add_within_budget (B : Z) (calls : list call) (p : CapturedPacket) :
  0 < B ->
  exists rb ps,
    performAll (NewRingBuffer B) calls = Some rb /\
    maxSize rb = B /\
    GetAll rb = Some (Some <$> ps) /\
    currentSize rb = total ps /\
    total ps <= B /\
    (B <= Go.len (RawData p) ->
     exists rb' kept p',
       Add rb p = Some rb' /\
       GetAll rb' = Some (Some <$> kept ++ [p']) /\
       RawData p' = take (Z.to_nat B) (RawData p) /\
       Go.len (RawData p') = B /\
       total (kept ++ [p']) = B /\
       currentSize rb' = B).
Proof.
  intros HB.
  assert (Hmax : maxSize (NewRingBuffer B) = B).
  { unfold NewRingBuffer. cbn [maxSize]. by rewrite bool_decide_eq_false_2 by lia. }
  destruct (performAll_rep calls _ _ (rep_new B)) as (rb & Hall & Hrep & Hmax').
  rewrite Hmax in Hrep, Hmax'.
  set (ps := foldl (effect B) [] calls) in *.
  exists rb, ps. split; [done|]. split; [done|].
  split; [by apply GetAll_rep|]. split; [by apply rep_size|].
  split; [apply foldl_effect_fits; simpl; lia|].
  intros Hbig.
  destruct (Add_rep rb ps p Hrep) as (rb' & Hadd & Hrep' & _).
  rewrite Hmax' in Hrep'.
  destruct (enqueue_oversized B ps p) as (Hraw & Hlen & Htotal); [lia|done|].
  exists rb', (evict_oldest B (Go.len (RawData (truncated B p))) ps), (truncated B p).
  split; [done|]. split; [by apply GetAll_rep|].
  split; [done|]. split; [done|]. split; [done|].
  by rewrite (rep_size _ _ Hrep').
Qed.

Lemma Add_within_budget_witness :
  0 < 4 /\
  4 <= Go.len (RawData (testPacket "Test-2" 6)) /\
  exists rb ps,
    performAll (NewRingBuffer 4) [DoAdd (testPacket "Test-0" 3); DoAdd (testPacket "Test-1" 2)]
    = Some rb /\
    GetAll rb = Some (Some <$> ps) /\
    total ps <= 4 /\
    exists rb' kept p',
      Add rb (testPacket "Test-2" 6) = Some rb' /\
      GetAll rb' = Some (Some <$> kept ++ [p']) /\
      RawData p' = take (Z.to_nat 4) (RawData (testPacket "Test-2" 6)) /\
      total (kept ++ [p']) = 4.
Proof.
  assert (HB : 0 < 4) by lia.
  assert (Hbig : 4 <= Go.len (RawData (testPacket "Test-2" 6))) by (by vm_compute).
  destruct (Add_within_budget 4
              [DoAdd (testPacket "Test-0" 3); DoAdd (testPacket "Test-1" 2)]
              (testPacket "Test-2" 6) HB)
    as (rb & ps & Hrun & _ & Hget & _ & Hfit & Hover).
  destruct (Hover Hbig) as (rb' & kept & p' & Hadd & Hget' & Hraw & _ & Htotal & _).
  split; [exact HB|]. split; [exact Hbig|].
  exists rb, ps. split; [exact Hrun|]. split; [exact Hget|]. split; [exact Hfit|].
  exists rb', kept, p'. split; [exact Hadd|]. split; [exact Hget'|].
  split; [exact Hraw|exact Htotal].
Defined.

(** C2. With a budget of [2 * X], three packets of [X] raw bytes each added
    in order leave exactly the second and the third, in that order. *)
Theorem eviction_is_fifo (X : Z) (p1 p2 p3 : CapturedPacket) :
  0 < X ->
  Go.len (RawData p1) = X -> Go.len (RawData p2) = X -> Go.len (RawData p3) = X ->
  exists rb,
    performAll (NewRingBuffer (2 * X)) [DoAdd p1; DoAdd p2; DoAdd p3] = Some rb /\
    GetAll rb = Some [Some p2; Some p3].
Proof.
  intros HX H1 H2 H3.
  assert (Hmax : maxSize (NewRingBuffer (2 * X)) = 2 * X).
  { unfold NewRingBuffer. cbn [maxSize]. by rewrite bool_decide_eq_false_2 by lia. }
  destruct (performAll_rep [DoAdd p1; DoAdd p2; DoAdd p3] _ _ (rep_new (2 * X)))
    as (rb & Hall & Hrep & _).
  exists rb. split; [done|]. rewrite (GetAll_rep _ _ Hrep). f_equal.
  rewrite Hmax. clear Hall Hrep Hmax.
  assert (Hkeep : forall p, Go.len (RawData p) = X -> truncated (2 * X) p = p).
  { intros p Hp. unfold truncated. by rewrite bool_decide_eq_false_2 by lia. }
  cbn [foldl effect]. unfold enqueue. rewrite !Hkeep by done.
  rewrite H1, H2, H3. cbn [evict_oldest app total foldr].
  rewrite H1, (bool_decide_eq_false_2 (X + 0 + X > 2 * X)) by lia.
  cbn [evict_oldest app total foldr]. rewrite H1, H2.
  rewrite (bool_decide_eq_true_2 (X + (X + 0) + X > 2 * X)) by lia.
  by rewrite (bool_decide_eq_false_2 (X + 0 + X > 2 * X)) by lia.
Qed.

Lemma eviction_is_fifo_witness :
  0 < 5 /\
  Go.len (RawData (testPacket "Test-0" 5)) = 5 /\
  Go.len (RawData (testPacket "Test-1" 5)) = 5 /\
  Go.len (RawData (testPacket "Test-2" 5)) = 5 /\
  exists rb,
    performAll (NewRingBuffer (2 * 5))
      [DoAdd (testPacket "Test-0" 5); DoAdd (testPacket "Test-1" 5);
       DoAdd (testPacket "Test-2" 5)] = Some rb /\
    GetAll rb = Some [Some (testPacket "Test-1" 5); Some (testPacket "Test-2" 5)].
Proof.
  split; [lia|]. do 3 (split; [reflexivity|]).
  apply (eviction_is_fifo 5 (testPacket "Test-0" 5) (testPacket "Test-1" 5)
           (testPacket "Test-2" 5)); [lia | reflexivity ..].
Defined.

Lemma NewRingBuffer_budget m :
  maxSize (NewRingBuffer m) = (if bool_decide (m <= 0) then 10485760 else m) /\
  0 < maxSize (NewRingBuffer m).
Proof.
  unfold NewRingBuffer, defaultMaxSize. cbn [maxSize].
  case_bool_decide; lia.
Qed.

(** Every buffer a run of calls leads to, with its retained packets. *)
Lemma reachable_rep m calls :
  exists rb ps,
    performAll (NewRingBuffer m) calls = Some rb /\ rep rb ps /\
    maxSize rb = maxSize (NewRingBuffer m).
Proof.
  destruct (performAll_rep calls _ _ (rep_new m)) as (rb & Hall & Hrep & Hmax).
  by exists rb, (foldl (effect (maxSize (NewRingBuffer m))) [] calls).
Qed.

(** C8. [GetStats] gives the buffer back as it was, with [count],
    [currentSize] and the usage, which is 0 for a budget of 0 and otherwise
    [float64(currentSize) * 100 / float64(maxSize)] in binary64 arithmetic.  In
    every buffer that [NewRingBuffer] and a run of [Add] and [Clear] calls
    lead to, [count] is the number of packets [GetAll] gives and
    [currentSize] the total of their raw bytes. *)
Theorem GetStats_reports :
  (forall rb,
     GetStats rb =
     (rb, (count rb, currentSize rb,
           if bool_decide (maxSize rb = 0) then S754_zero false
           else Go.fdiv (Go.fmul (Go.float64_of_int (currentSize rb))
                                 (Go.float64_of_int 100))
                        (Go.float64_of_int (maxSize rb))))) /\
  (forall m calls,
     exists rb ps,
       performAll (NewRingBuffer m) calls = Some rb /\
       GetAll rb = Some (Some <$> ps) /\
       GetStats rb =
       (rb, (Go.len ps, total ps,
             Go.fdiv (Go.fmul (Go.float64_of_int (total ps)) (Go.float64_of_int 100))
                     (Go.float64_of_int (maxSize rb))))).
Proof.
  split; [done|].
  intros m calls. destruct (reachable_rep m calls) as (rb & ps & Hall & Hrep & Hmax).
  exists rb, ps. split; [done|]. split; [by apply GetAll_rep|].
  unfold GetStats, getUsagePercentLocked.
  rewrite (rep_count _ _ Hrep), (rep_size _ _ Hrep).
  pose proof (rep_budget _ _ Hrep).
  by rewrite bool_decide_eq_false_2 by lia.
Qed.

(** The usage in the test of the buffer, 100 bytes of 1 MiB, is
    0.0095367431640625 = 5497558138880000 * 2^-59; an empty buffer is at 0;
    a third of the budget is at the binary64 number next to 100/3. *)
Example GetStats_examples :
  (rb ← performAll (NewRingBuffer (1024 * 1024)) [DoAdd (testPacket "Test" 100)];
   Some (GetStats rb).2)
  = Some (1, 100, S754_finite false 5497558138880000 (-59)) /\
  (GetStats (NewRingBuffer (1024 * 1024))).2 = (0, 0, S754_zero false) /\
  (rb ← performAll (NewRingBuffer 3) [DoAdd (testPacket "Test" 1)];
   Some (GetStats rb).2)
  = Some (1, 1, S754_finite false 4691249611844267 (-47)).
Proof. by vm_compute. Qed.

End BufferFacts.

(** ** The protocol sniffer *)

Section SnifferFacts.
Import Proxy.
Local Open Scope Z_scope.

Lemma HasPrefix_spec prefix : forall s,
  Go.HasPrefix s prefix = true <-> exists rest, s = prefix +:+ rest.
Proof.
  induction prefix as [|c prefix IH]; intros s.
  - split; [intros _; by exists s|done].
  - destruct s as [|d s]; simpl.
    + split; [done|]. by intros [rest Hrest].
    + rewrite andb_true_iff, Ascii.eqb_eq, IH. split.
      * intros [-> [rest ->]]. by exists rest.
      * intros [rest Hrest]. injection Hrest as -> ->. split; [done|by exists rest].
Qed.

Lemma Contains_spec substr : forall s,
  Go.Contains s substr = true <-> exists before after, s = before +:+ substr +:+ after.
Proof.
  induction s as [|d s IH]; simpl; rewrite orb_true_iff, HasPrefix_spec.
  - split.
    + intros [[rest Hrest]|?]; [|done]. by exists "", rest.
    + intros (before & after & Heq). left. exists after.
      destruct before; [done|discriminate].
  - rewrite IH. split.
    + intros [[rest Hrest]|(before & after & ->)].
      * by exists "", rest.
      * by exists (String d before), after.
    + intros (before & after & Heq). destruct before as [|c before].
      * left. by exists after.
      * right. injection Heq as -> ->. by exists before, after.
Qed.

Lemma list_byte_of_string_app s1 s2 :
  list_byte_of_string (s1 +:+ s2) = list_byte_of_string s1 ++ list_byte_of_string s2.
Proof.
  induction s1 as [|c s1 IH]; [done|].
  change (list_byte_of_string (String c s1 +:+ s2))
    with (Ascii.byte_of_ascii c :: list_byte_of_string (s1 +:+ s2)).
  by rewrite IH.
Qed.

Lemma string_of_list_byte_eq data s :
  string_of_list_byte data = s <-> data = list_byte_of_string s.
Proof.
  split.
  - intros <-. by rewrite list_byte_of_string_of_list_byte.
  - intros ->. by rewrite string_of_list_byte_of_string.
Qed.

Lemma begins_with_reflect data literal :
  Go.HasPrefix (string_of_list_byte data) literal = true <-> begins_with data literal.
Proof.
  rewrite HasPrefix_spec. unfold begins_with. split.
  - intros [rest Hrest]. exists (list_byte_of_string rest).
    apply string_of_list_byte_eq in Hrest. by rewrite Hrest, list_byte_of_string_app.
  - intros [rest ->]. exists (string_of_list_byte rest).
    apply string_of_list_byte_eq.
    by rewrite list_byte_of_string_app, list_byte_of_string_of_list_byte.
Qed.

Lemma contains_reflect data literal :
  Go.Contains (string_of_list_byte data) literal = true <-> contains data literal.
Proof.
  rewrite Contains_spec. unfold contains. split.
  - intros (before & after & Heq).
    exists (list_byte_of_string before), (list_byte_of_string after).
    apply string_of_list_byte_eq in Heq. by rewrite Heq, !list_byte_of_string_app.
  - intros (before & after & ->).
    exists (string_of_list_byte before), (string_of_list_byte after).
    apply string_of_list_byte_eq.
    by rewrite !list_byte_of_string_app, !list_byte_of_string_of_list_byte.
Qed.

Lemma rule_http1_reflect data :
  let dataStr := string_of_list_byte data in
  Go.HasPrefix dataStr "GET " || Go.HasPrefix dataStr "POST " ||
  Go.HasPrefix dataStr "PUT " || Go.HasPrefix dataStr "DELETE " ||
  Go.HasPrefix dataStr "HEAD " || Go.HasPrefix dataStr "OPTIONS " ||
  Go.HasPrefix dataStr "HTTP/1." = true <-> rule_http1 data.
Proof.
  intros dataStr. subst dataStr. unfold rule_http1.
  rewrite !orb_true_iff, !begins_with_reflect. tauto.
Qed.

Lemma rule_grpc_reflect data :
  let dataStr := string_of_list_byte data in
  Go.Contains dataStr "/grpc." || Go.Contains dataStr ".proto." = true <-> rule_grpc data.
Proof.
  intros dataStr. subst dataStr. unfold rule_grpc.
  by rewrite orb_true_iff, !contains_reflect.
Qed.

Lemma rule_tls_reflect data :
  bool_decide (Go.len data > 5) &&
  bool_decide (Go.index data 0 = Some x16) &&
  bool_decide (Go.index data 1 = Some x03) = true <-> rule_tls data.
Proof.
  unfold rule_tls. rewrite !andb_true_iff, !bool_decide_eq_true. split.
  - intros [[Hlen H0] H1]. split; [done|].
    destruct data as [|b0 [|b1 rest]]; [done..|].
    unfold Go.index in H0, H1.
    rewrite bool_decide_eq_true_2 in H0, H1 by (unfold Go.len in *; simpl in *; lia).
    simpl in H0, H1. exists rest. congruence.
  - intros [Hlen [rest ->]]. split; [split; [done|]|];
      unfold Go.index; rewrite bool_decide_eq_true_2; try done;
      unfold Go.len in *; simpl in *; lia.
Qed.

(** C4. [detectProtocol] answers by the five rules, the first that matches
    winning; a chunk that starts with the bytes 0x16 0x03 and contains
    "/grpc." is "gRPC". *)
Theorem detectProtocol_rules :
  (forall data,
     (rule_http1 data /\ detectProtocol data = "HTTP/1.x") \/
     (~ rule_http1 data /\ rule_http2 data /\ detectProtocol data = "HTTP/2") \/
     (~ rule_http1 data /\ ~ rule_http2 data /\ rule_grpc data /\
      detectProtocol data = "gRPC") \/
     (~ rule_http1 data /\ ~ rule_http2 data /\ ~ rule_grpc data /\ rule_tls data /\
      detectProtocol data = "TLS") \/
     (~ rule_http1 data /\ ~ rule_http2 data /\ ~ rule_grpc data /\ ~ rule_tls data /\
      detectProtocol data = "Unknown")) /\
  (forall rest,
     contains (x16 :: x03 :: rest) "/grpc." ->
     detectProtocol (x16 :: x03 :: rest) = "gRPC").
Proof.
  split.
  - intros data.
    pose proof (rule_http1_reflect data) as R1.
    pose proof (begins_with_reflect data "PRI * HTTP/2.0") as R2.
    pose proof (rule_grpc_reflect data) as R3.
    pose proof (rule_tls_reflect data) as R4.
    cbv zeta in R1, R3. fold (rule_http2 data) in R2.
    unfold detectProtocol. cbv zeta.
    destruct R1 as [R1 R1']. destruct R2 as [R2 R2'].
    destruct R3 as [R3 R3']. destruct R4 as [R4 R4'].
    match type of R1 with ?b = true -> _ => destruct b end.
    { left. split_and!; auto. }
    assert (N1 : ~ rule_http1 data) by (intros Hr; by specialize (R1' Hr)).
    right.
    match type of R2 with ?b = true -> _ => destruct b end.
    { left. split_and!; auto. }
    assert (N2 : ~ rule_http2 data) by (intros Hr; by specialize (R2' Hr)).
    right.
    match type of R3 with ?b = true -> _ => destruct b end.
    { left. split_and!; auto. }
    assert (N3 : ~ rule_grpc data) by (intros Hr; by specialize (R3' Hr)).
    right.
    match type of R4 with ?b = true -> _ => destruct b end.
    { left. split_and!; auto. }
    assert (N4 : ~ rule_tls data) by (intros Hr; by specialize (R4' Hr)).
    right. split_and!; auto.
  - intros rest Hgrpc.
    apply contains_reflect in Hgrpc.
    unfold detectProtocol. cbv zeta.
    change (string_of_list_byte (x16 :: x03 :: rest))
      with (String (Ascii.ascii_of_byte x16)
              (String (Ascii.ascii_of_byte x03) (string_of_list_byte rest))) in *.
    by rewrite Hgrpc.
Qed.

Lemma detectProtocol_rules_witness :
  contains (x16 :: x03 :: list_byte_of_string "/grpc.Health") "/grpc." /\
  detectProtocol (x16 :: x03 :: list_byte_of_string "/grpc.Health") = "gRPC".
Proof.
  assert (Hin : contains (x16 :: x03 :: list_byte_of_string "/grpc.Health") "/grpc.").
  { by exists [x16; x03], (list_byte_of_string "Health"). }
  split; [exact Hin|].
  exact (proj2 detectProtocol_rules (list_byte_of_string "/grpc.Health") Hin).
Defined.

(** The examples of the design document. *)
Example detectProtocol_examples :
  detectProtocol (list_byte_of_string "PRI * HTTP/2.0") = "HTTP/2" /\
  detectProtocol [x16; x03; x01; x00; x00; x00] = "TLS" /\
  detectProtocol [x16; x03; x01; x00; x00] = "Unknown" /\
  detectProtocol (list_byte_of_string "hello world") = "Unknown".
Proof. by vm_compute. Qed.

(** *** The extraction of the printable runs *)

Lemma printable_split (run1 run2 rest1 rest2 : list byte) b1 b2 :
  Forall (fun b => printable b = true) run1 ->
  Forall (fun b => printable b = true) run2 ->
  printable b1 = false -> printable b2 = false ->
  run1 ++ b1 :: rest1 = run2 ++ b2 :: rest2 ->
  run1 = run2 /\ b1 = b2 /\ rest1 = rest2.
Proof.
  intros H1 H2 Hb1 Hb2. revert run2 H2.
  induction H1 as [|x run1 Hx H1 IH]; intros run2 H2 Heq.
  - destruct H2 as [|y run2 Hy H2]; simpl in Heq.
    + by injection Heq as -> ->.
    + injection Heq as -> _. congruence.
  - destruct H2 as [|y run2 Hy H2]; simpl in Heq.
    + injection Heq as -> _. congruence.
    + injection Heq as -> Heq. destruct (IH run2 H2 Heq) as (-> & -> & ->). done.
Qed.

(** The runs of a chunk are determined by the chunk. *)
Lemma runs_of_functional data runs1 :
  runs_of data runs1 -> forall runs2, runs_of data runs2 -> runs1 = runs2.
Proof.
  induction 1 as [|b rest runs Hb Hrest IH|run Hne Hrun|run b rest runs Hne Hrun Hb Hrest IH];
    intros runs2 H2.
  - inversion H2 as [| | |run' ? ? ? ? ? ? ? Heq]; subst; try done.
    by destruct run'.
  - inversion H2 as [|? ? ? ? H2'|run' Hne' Hrun'|run' b' rest' runs' Hne' Hrun' Hb' H2' Heq];
      subst.
    + by apply IH.
    + inversion Hrun'; congruence.
    + destruct run' as [|x run']; [done|]. injection Heq as -> _.
      inversion Hrun'; congruence.
  - inversion H2 as [|b' ? ? Hb'|run' Hne' Hrun'|run' b' rest' runs' Hne' Hrun' Hb' H2' Heq];
      subst; try done.
    + inversion Hrun; congruence.
    + apply Forall_app in Hrun as [_ Hrun]. inversion Hrun; congruence.
  - inversion H2 as [|b' ? ? Hb' H2'|run' Hne' Hrun'|run' b' rest' runs' Hne' Hrun' Hb' H2' Heq];
      subst.
    + by destruct run.
    + destruct run as [|x run]; [done|]. simplify_eq/=. inversion Hrun; congruence.
    + apply Forall_app in Hrun' as [_ Hrun']. inversion Hrun'; congruence.
    + destruct (printable_split _ _ _ _ _ _ Hrun' Hrun Hb' Hb Heq) as (-> & -> & ->).
      f_equal. by apply IH.
Qed.

Lemma long_run (run : list byte) :
  bool_decide (Go.len run > 4) = bool_decide (4 < length run)%nat.
Proof. apply bool_decide_ext. unfold Go.len. lia. Qed.

Lemma extract_loop data : forall strings current,
  Forall (fun b => printable b = true) current ->
  exists runs,
    runs_of (current ++ data) runs /\
    extract_finish (fold_left extract_step data (strings, current))
    = strings ++ (string_of_list_byte <$>
                    filter (fun run => (4 < length run)%nat) runs).
Proof.
  induction data as [|b data IH]; intros strings current Hcur.
  - cbn [fold_left extract_finish]. rewrite app_nil_r, long_run.
    destruct current as [|c current].
    + exists []. split; [constructor|]. by rewrite app_nil_r.
    + exists [c :: current]. split; [by constructor|].
      rewrite filter_cons, filter_nil.
      destruct (decide (4 < length (c :: current))%nat) as [Hlong|Hshort].
      * by rewrite bool_decide_eq_true_2.
      * rewrite bool_decide_eq_false_2 by done. by rewrite app_nil_r.
  - cbn [fold_left]. unfold extract_step at 2.
    destruct (printable b) eqn:Hb.
    + destruct (IH strings (current ++ [b])) as (runs & Hruns & Heq).
      { apply Forall_app. split; [done|]. by constructor. }
      exists runs. rewrite <-app_assoc in Hruns. by split.
    + destruct (IH (if bool_decide (Go.len current > 4)
                    then strings ++ [string_of_list_byte current]
                    else strings) [] (Forall_nil_2 _)) as (runs & Hruns & Heq).
      rewrite Heq. simpl in Hruns.
      destruct current as [|c current].
      * exists runs. split; [by constructor|]. by rewrite bool_decide_eq_false_2.
      * exists ((c :: current) :: runs). split; [by constructor|].
        rewrite long_run, filter_cons.
        destruct (decide (4 < length (c :: current))%nat) as [Hlong|Hshort].
        -- rewrite bool_decide_eq_true_2 by done. by rewrite <-app_assoc.
        -- by rewrite bool_decide_eq_false_2.
Qed.

(** C5. [extractAsciiStrings] gives the maximal runs of printable bytes of
    the chunk that are longer than 4, in their order, and no more than the
    first 10 of them; on "AAAAA\x00BBBBB\x01C" these are "AAAAA" and
    "BBBBB". *)
Theorem extractAsciiStrings_runs :
  (forall data,
     exists runs, runs_of data runs /\ extractAsciiStrings data = emitted runs) /\
  extractAsciiStrings
    (list_byte_of_string "AAAAA" ++ [x00] ++ list_byte_of_string "BBBBB" ++ [x01]
     ++ list_byte_of_string "C")
  = ["AAAAA"; "BBBBB"].
Proof.
  split; [|by vm_compute].
  intros data.
  destruct (extract_loop data [] [] (Forall_nil_2 _)) as (runs & Hruns & Heq).
  exists runs. split; [done|].
  unfold extractAsciiStrings, emitted. cbv zeta.
  rewrite Heq. cbn [app]. clear Heq.
  case_bool_decide as Hmany; [done|].
  symmetry. apply take_ge. unfold Go.len in Hmany. lia.
Qed.

End SnifferFacts.

(** ** The registry *)

Section RegistryFacts.
Import Buffer Proxy.
Local Open Scope Z_scope.

Lemma AlreadyRunning_not_BindError port port' reason :
  AlreadyRunning port <> BindError port' reason.
Proof. done. Qed.

Lemma StartProxy_registered net_Listen now pm port host fport limit :
  is_Some (proxies pm !! port) ->
  StartProxy net_Listen now pm port host fport limit = (pm, Some (AlreadyRunning port)).
Proof. intros [proxy Hp]. unfold StartProxy. by rewrite Hp. Qed.

Lemma StartProxy_keeps net_Listen now pm port host fport limit other :
  is_Some (proxies pm !! other) ->
  is_Some (proxies (StartProxy net_Listen now pm port host fport limit).1 !! other).
Proof.
  intros Hother. unfold StartProxy.
  destruct (proxies pm !! port) eqn:Hp; [done|].
  destruct (net_Listen _ _); [|done]. cbn [fst proxies].
  destruct (decide (port = other)) as [->|Hne].
  - rewrite lookup_insert_eq. by eexists.
  - by rewrite lookup_insert_ne.
Qed.

Lemma started_none port calls : forall pm,
  is_Some (proxies pm !! port) ->
  started port calls (StartAll pm calls).2 = 0%nat.
Proof.
  induction calls as [|c calls IH]; intros pm Hreg; [done|].
  cbn [StartAll].
  pose proof (StartProxy_keeps (call_net_Listen c) (call_now c) pm (call_listenPort c)
                (call_forwardHost c) (call_forwardPort c) (call_captureLimit c) port Hreg)
    as Hkeep.
  destruct (decide (call_listenPort c = port)) as [Heq|Hne].
  - rewrite Heq in *. rewrite StartProxy_registered in * by done.
    cbn [fst] in Hkeep. specialize (IH pm Hreg).
    destruct (StartAll pm calls) as [pm' errs]. cbn [snd started] in *.
    rewrite IH. by rewrite andb_false_r.
  - destruct (StartProxy _ _ pm _ _ _ _) as [pm1 err]. cbn [fst] in Hkeep.
    specialize (IH pm1 Hkeep).
    destruct (StartAll pm1 calls) as [pm' errs]. cbn [snd started] in *.
    rewrite IH. by rewrite bool_decide_eq_false_2 by done.
Qed.

Lemma started_at_most_once port calls : forall pm,
  (started port calls (StartAll pm calls).2 <= 1)%nat.
Proof.
  induction calls as [|c calls IH]; intros pm; [simpl; lia|].
  cbn [StartAll].
  destruct (StartProxy _ _ pm _ _ _ _) as [pm1 err] eqn:Hstart.
  specialize (IH pm1).
  pose proof (started_none port calls pm1) as Hnone.
  destruct (StartAll pm1 calls) as [pm' errs]. cbn [snd started] in *.
  destruct (bool_decide (call_listenPort c = port) && bool_decide (err = None)) eqn:Hok;
    [|lia].
  apply andb_true_iff in Hok as [Hport Herr].
  apply bool_decide_eq_true in Hport, Herr. subst err.
  rewrite Hnone; [lia|]. rewrite <-Hport.
  unfold StartProxy in Hstart.
  destruct (proxies pm !! call_listenPort c); [by injection Hstart|].
  destruct (call_net_Listen c _ _); [|by injection Hstart].
  injection Hstart as <-. cbn [proxies]. rewrite lookup_insert_eq. by eexists.
Qed.

(** C6. [StartProxy] returns the already-running error exactly when the
    port has an entry, and then leaves the registry as it was; on a free port
    that the system refuses to bind it returns the bind error with the
    system's reason and adds nothing; otherwise it adds one instance under
    the port and touches no other entry.  The calls being atomic under the
    lock, in every run of [StartProxy] calls at most one call for a port
    succeeds, and none when the port had an entry at the start. *)
Theorem StartProxy_outcomes :
  (forall net_Listen now pm port host fport limit,
     let '(pm', err) := StartProxy net_Listen now pm port host fport limit in
     (err = Some (AlreadyRunning port) <-> is_Some (proxies pm !! port)) /\
     match proxies pm !! port with
     | Some _ => pm' = pm
     | None =>
         match net_Listen "tcp" (":" +:+ Go.fmt_d port) with
         | inr reason => err = Some (BindError port reason) /\ pm' = pm
         | inl listener =>
             err = None /\
             exists proxy,
               proxies pm' = <[port := proxy]> (proxies pm) /\
               ListenPort proxy = port /\ ForwardHost proxy = host /\
               ForwardPort proxy = fport /\ Listener proxy = listener /\
               Buffer proxy = NewRingBuffer limit /\ Done proxy = false /\
               size (proxies pm') = S (size (proxies pm)) /\
               (forall other, other <> port ->
                  proxies pm' !! other = proxies pm !! other)
         end
     end) /\
  (forall pm calls port,
     let n := started port calls (StartAll pm calls).2 in
     if bool_decide (is_Some (proxies pm !! port)) then n = 0%nat else (n <= 1)%nat).
Proof.
  split.
  - intros net_Listen now pm port host fport limit. unfold StartProxy.
    destruct (proxies pm !! port) as [existing|] eqn:Hp.
    { split; [|done]. split; [by eexists|done]. }
    destruct (net_Listen "tcp" (":" +:+ Go.fmt_d port)) as [listener|reason].
    + split; [split; [done|by intros [? ?]]|]. split; [done|].
      eexists. split; [done|]. cbn [ListenPort ForwardHost ForwardPort Listener Buffer Done proxies].
      split_and!; try done.
      * by apply map_size_insert_None.
      * intros other Hother. by rewrite lookup_insert_ne.
    + split; [|done]. split; [|by intros [? ?]].
      intros Herr. injection Herr as Herr.
      by destruct (AlreadyRunning_not_BindError port port reason).
  - intros pm calls port. cbv zeta. case_bool_decide as Hreg.
    + by apply started_none.
    + apply started_at_most_once.
Qed.

Lemma StartProxy_outcomes_witness :
  8081 <> 8080 /\
  proxies (StartProxy (fun _ _ => inl 3) 0 NewProxyManager 8080 "localhost" 3000 0).1
    !! 8081
  = proxies NewProxyManager !! 8081.
Proof.
  split; [lia|].
  pose proof (proj1 StartProxy_outcomes (fun _ _ => inl 3) 0 NewProxyManager
                8080 "localhost" 3000 0) as Hstart.
  unfold StartProxy in *.
  change (proxies NewProxyManager !! 8080) with (@None ProxyInstance) in *.
  cbv beta iota in Hstart.
  destruct Hstart as (_ & _ & proxy & _ & _ & _ & _ & _ & _ & _ & _ & Hrest).
  apply Hrest. lia.
Defined.

(** The invariant of the registry. *)
Lemma all_open_new : all_open NewProxyManager.
Proof. apply map_Forall_empty. Qed.

Lemma all_open_StartProxy net_Listen now pm port host fport limit :
  all_open pm -> all_open (StartProxy net_Listen now pm port host fport limit).1.
Proof.
  intros Hopen. unfold StartProxy.
  destruct (proxies pm !! port); [done|].
  destruct (net_Listen _ _); [|done].
  by apply map_Forall_insert_2.
Qed.

Lemma all_open_StopProxy pm port pm' result :
  all_open pm -> StopProxy pm port = Some (pm', result) -> all_open pm'.
Proof.
  intros Hopen. unfold StopProxy.
  destruct (proxies pm !! port) as [proxy|]; [|by intros [= <- _]].
  destruct (Done proxy); [done|]. intros [= <- _].
  by apply map_Forall_delete.
Qed.

Lemma all_open_StopAll pm pm' : StopAll pm = Some pm' -> all_open pm'.
Proof.
  unfold StopAll. case_bool_decide; [|done]. intros [= <-]. apply map_Forall_empty.
Qed.

(** C7. In a registry none of whose instances is stopped, [StopProxy] on a
    port without an entry returns the not-found error and the registry as it
    was; on a port with an entry it removes that entry and no other, and
    returns the instance's [BytesCaptured]. *)
Theorem StopProxy_outcomes pm port :
  all_open pm ->
  match proxies pm !! port with
  | None => StopProxy pm port = Some (pm, (0, Some (NotFound port)))
  | Some proxy =>
      exists pm',
        StopProxy pm port = Some (pm', (BytesCaptured (Stats proxy), None)) /\
        proxies pm' !! port = None /\
        (forall other, other <> port -> proxies pm' !! other = proxies pm !! other)
  end.
Proof.
  intros Hopen. unfold StopProxy.
  destruct (proxies pm !! port) as [proxy|] eqn:Hp; [|done].
  rewrite (Hopen port proxy Hp).
  eexists. split; [done|]. cbn [proxies]. split.
  - apply lookup_delete_eq.
  - intros other Hother. by apply lookup_delete_ne.
Qed.

Lemma StopProxy_outcomes_witness :
  all_open testManager /\
  exists pm',
    StopProxy testManager 19090 = Some (pm', (0, None)) /\
    proxies pm' !! 19090 = None /\
    (forall other, other <> 19090 -> proxies pm' !! other = proxies testManager !! other).
Proof.
  assert (Hopen : all_open testManager) by apply all_open_StartProxy, all_open_new.
  split; [exact Hopen|].
  exact (StopProxy_outcomes testManager 19090 Hopen).
Defined.

End RegistryFacts.

(** ** The relay and its stop channel *)

Section RelayFacts.
Import Proxy.

(** C3. The check on [done] and the [close(done)] after it are two steps of
    a relay.  On [racing_schedule] both relays are in a terminal case, and
    [close(done)] runs twice: the second one is the panic of closing a closed
    channel. *)
Theorem relay_double_close :
  connection_run (handleConnection_start false) racing_schedule
  = Some {| chans := {| instanceDone := false; connDone := true; closes := 2 |};
            clientToServer := Returned;
            serverToClient := Panicked |}.
Proof. reflexivity. Qed.

(** When one relay has closed the channel before the other checks it, the
    channel is closed once. *)
Example relay_single_close :
  connection_run (handleConnection_start false) orderly_schedule
  = Some {| chans := {| instanceDone := false; connDone := true; closes := 1 |};
            clientToServer := Returned;
            serverToClient := Returned |}.
Proof. reflexivity. Qed.

End RelayFacts.

(** ** The tool handlers *)

Section ToolsFacts.
Import Buffer Proxy Tools.
Local Open Scope Z_scope.

Variable net_Listen : string -> string -> Z + string.
Variable now : Z.
Variable formatTime : Z -> string.
Variable formatPercent : Go.float64 -> string.

Lemma start_malformed manager :
  StartProxyHandler_Execute net_Listen now manager ArgsOther
  = (manager, (None, Some "invalid arguments format")) /\
  (forall args,
     (getInt args "listen_port").2 = false ->
     StartProxyHandler_Execute net_Listen now manager (ArgsMap args)
     = (manager, (None, Some "listen_port is required"))) /\
  (forall args,
     (getInt args "listen_port").2 = true ->
     (getInt args "forward_port").2 = false ->
     StartProxyHandler_Execute net_Listen now manager (ArgsMap args)
     = (manager, (None, Some "forward_port is required"))).
Proof.
  split; [done|]. split.
  - intros args Hl. unfold StartProxyHandler_Execute.
    destruct (getInt args "listen_port") as [listenPort ok]. simpl in Hl. by subst ok.
  - intros args Hl Hf. unfold StartProxyHandler_Execute.
    destruct (getInt args "listen_port") as [listenPort ok]. simpl in Hl. subst ok.
    cbn [negb]. destruct (getString args "forward_host") as [forwardHost ?].
    destruct (getInt args "forward_port") as [forwardPort ok]. simpl in Hf. by subst ok.
Qed.

(** What [StartProxyHandler.Execute] passes to [StartProxy], and what it
    makes of the answer. *)
Lemma start_well_formed manager args listenPort forwardPort :
  getInt args "listen_port" = (listenPort, true) ->
  getInt args "forward_port" = (forwardPort, true) ->
  let host := (getString args "forward_host").1 in
  let host := if bool_decide (host = "") then "localhost" else host in
  let limit := (getInt args "capture_limit").1 in
  let limit := if bool_decide (limit <= 0) then 10485760 else limit in
  let '(manager', err) :=
    StartProxy net_Listen now manager listenPort host forwardPort limit in
  StartProxyHandler_Execute net_Listen now manager (ArgsMap args)
  = (manager',
     match err with
     | Some msg => error_result msg
     | None =>
         (Some (NewToolResultText (JObject
            [("status", JString "started");
             ("listen_port", JInt listenPort);
             ("forward_to", JString (hostPort host forwardPort))])), None)
     end).
Proof.
  intros Hl Hf. unfold StartProxyHandler_Execute. rewrite Hl, Hf. cbn [negb].
  destruct (getString args "forward_host") as [forwardHost ?].
  destruct (getInt args "capture_limit") as [captureLimit ?]. cbn [fst].
  change (10 * 1024 * 1024) with 10485760.
  destruct (StartProxy _ _ _ _ _ _ _) as [manager' [msg|]]; done.
Qed.

Lemma stop_malformed manager :
  StopProxyHandler_Execute manager ArgsOther
  = Some (manager, (None, Some "invalid arguments format")) /\
  (forall args,
     (getInt args "listen_port").2 = false ->
     StopProxyHandler_Execute manager (ArgsMap args)
     = Some (manager, (None, Some "listen_port is required"))).
Proof.
  split; [done|]. intros args Hl. unfold StopProxyHandler_Execute.
  destruct (getInt args "listen_port") as [listenPort ok]. simpl in Hl. by subst ok.
Qed.

Lemma stop_not_found manager args listenPort :
  getInt args "listen_port" = (listenPort, true) ->
  proxies manager !! listenPort = None ->
  StopProxyHandler_Execute manager (ArgsMap args)
  = Some (manager, error_result (NotFound listenPort)).
Proof.
  intros Hl Hp. unfold StopProxyHandler_Execute, StopProxy. rewrite Hl, Hp. done.
Qed.

Lemma get_output_not_found manager request args listenPort :
  args = match request with ArgsMap args => args | ArgsOther => ∅ end ->
  getInt args "listen_port" = (listenPort, true) ->
  proxies manager !! listenPort = None ->
  GetProxyOutputHandler_Execute formatTime formatPercent manager request
  = Some (manager, error_result (NotFound listenPort)).
Proof.
  intros -> Hl Hp. unfold GetProxyOutputHandler_Execute, GetProxy.
  rewrite Hl, Hp. done.
Qed.

(** [GetProxyOutputHandler.Execute] has no transport-level failure. *)
Lemma get_output_no_failure manager request manager' r :
  GetProxyOutputHandler_Execute formatTime formatPercent manager request
  = Some (manager', r) ->
  is_Some r.1 /\ r.2 = None.
Proof.
  unfold GetProxyOutputHandler_Execute.
  destruct (getInt _ "listen_port") as [listenPort hasPort].
  set (clearBuffer := match _ !! "clear_buffer" with Some (VBool cb) => cb | _ => true end).
  destruct hasPort.
  - destruct (GetProxy manager listenPort) as [proxy|].
    + destruct (proxyEntries _ _ _ _ _) as [[proxies' proxyResults]|]; [|done].
      intros [= <- <-]. by split; [eexists|].
    + intros [= <- <-]. by split; [eexists|].
  - destruct (proxyEntries _ _ _ _ _) as [[proxies' proxyResults]|]; [|done].
    intros [= <- <-]. by split; [eexists|].
Qed.

Lemma proxyEntry_total clearBuffer proxy :
  (exists ps, rep (Buffer proxy) ps) ->
  is_Some (proxyEntry formatTime formatPercent clearBuffer proxy).
Proof.
  intros [ps Hrep]. unfold proxyEntry. rewrite (GetAll_rep _ _ Hrep).
  cbn [mbind option_bind].
  destruct (mapM_is_Some_2 (captureEntry formatTime) (Some <$> ps)) as [entries ->].
  { apply Forall_fmap, Forall_forall. intros p _. by eexists. }
  by eexists.
Qed.

Lemma proxyEntries_total clearBuffer todo : forall registry,
  Forall (fun entry => exists ps, rep (Buffer entry.2) ps) todo ->
  is_Some (proxyEntries formatTime formatPercent clearBuffer registry todo).
Proof.
  induction todo as [|[port proxy] todo IH]; intros registry Hok; [by eexists|].
  apply Forall_cons in Hok as [Hproxy Htodo]. cbn [proxyEntries].
  destruct (proxyEntry_total clearBuffer proxy Hproxy) as [[entry proxy'] ->].
  cbn [mbind option_bind].
  destruct (IH (<[port := proxy']> registry) Htodo) as [[registry' entries] ->].
  by eexists.
Qed.

Lemma get_output_total manager request :
  buffers_ok manager ->
  exists manager' r,
    GetProxyOutputHandler_Execute formatTime formatPercent manager request
    = Some (manager', r) /\ is_Some r.1 /\ r.2 = None.
Proof.
  intros Hok.
  assert (Hsome : is_Some (GetProxyOutputHandler_Execute formatTime formatPercent
                             manager request)).
  { unfold GetProxyOutputHandler_Execute.
    destruct (getInt _ "listen_port") as [listenPort hasPort].
    set (clearBuffer := match _ !! "clear_buffer" with Some (VBool cb) => cb | _ => true end).
    destruct hasPort.
    - unfold GetProxy. destruct (proxies manager !! listenPort) as [proxy|] eqn:Hp;
        [|by eexists].
      destruct (proxyEntries_total clearBuffer [(listenPort, proxy)] (proxies manager))
        as [[registry' entries] ->]; [|by eexists].
      apply Forall_singleton. by apply (Hok listenPort).
    - destruct (proxyEntries_total clearBuffer (GetAllProxies manager) (proxies manager))
        as [[registry' entries] ->]; [|by eexists].
      unfold GetAllProxies. apply map_Forall_to_list in Hok.
      eapply Forall_impl; [exact Hok|]. by intros [port proxy]. }
  destruct Hsome as [[manager' r] Hrun].
  exists manager', r. split; [done|]. by eapply get_output_no_failure.
Qed.

End ToolsFacts.

Section ToolsClaims.
Import Buffer Proxy Tools.
Local Open Scope Z_scope.

(** C9, as the code has it.  An error of the engine comes back as a result
    whose payload is the error message alone, with no error for the
    transport.  For start and stop, arguments that are not a map, or that
    lack a numeric [listen_port] (for start also [forward_port]), are a
    transport-level failure and leave the registry as it was.  get_output
    has no required argument and takes arguments that are not a map for an
    empty map: it has no transport-level failure. *)
Theorem handlers_report_errors
    (net_Listen : string -> string -> Z + string) (now : Z)
    (formatTime : Z -> string) (formatPercent : Go.float64 -> string)
    (manager : ProxyManager) :
  (* start *)
  (let r := StartProxyHandler_Execute net_Listen now manager ArgsOther in
   r.1 = manager /\ transport_failure r.2) /\
  (forall args,
     (getInt args "listen_port").2 = false \/ (getInt args "forward_port").2 = false ->
     let r := StartProxyHandler_Execute net_Listen now manager (ArgsMap args) in
     r.1 = manager /\ transport_failure r.2) /\
  (forall args port fport,
     getInt args "listen_port" = (port, true) ->
     getInt args "forward_port" = (fport, true) ->
     (is_Some (proxies manager !! port) ->
      StartProxyHandler_Execute net_Listen now manager (ArgsMap args)
      = (manager, error_result (AlreadyRunning port))) /\
     (forall reason,
        proxies manager !! port = None ->
        net_Listen "tcp" (":" +:+ Go.fmt_d port) = inr reason ->
        StartProxyHandler_Execute net_Listen now manager (ArgsMap args)
        = (manager, error_result (BindError port reason)))) /\
  (* stop *)
  (exists r, StopProxyHandler_Execute manager ArgsOther = Some (manager, r) /\
             transport_failure r) /\
  (forall args,
     (getInt args "listen_port").2 = false ->
     exists r, StopProxyHandler_Execute manager (ArgsMap args) = Some (manager, r) /\
               transport_failure r) /\
  (forall args port,
     getInt args "listen_port" = (port, true) ->
     proxies manager !! port = None ->
     StopProxyHandler_Execute manager (ArgsMap args)
     = Some (manager, error_result (NotFound port))) /\
  (* get_output *)
  (forall request port,
     getInt (match request with ArgsMap args => args | ArgsOther => ∅ end) "listen_port"
     = (port, true) ->
     proxies manager !! port = None ->
     GetProxyOutputHandler_Execute formatTime formatPercent manager request
     = Some (manager, error_result (NotFound port))) /\
  (buffers_ok manager ->
   forall request,
     exists manager' r,
       GetProxyOutputHandler_Execute formatTime formatPercent manager request
       = Some (manager', r) /\ ~ transport_failure r).
Proof.
  destruct (start_malformed net_Listen now manager) as (Hs1 & Hs2 & Hs3).
  destruct (stop_malformed manager) as (Ht1 & Ht2).
  split_and!.
  - rewrite Hs1. split; [done|]. split; [done|by eexists].
  - intros args Hbad. cbv zeta.
    destruct ((getInt args "listen_port").2) eqn:Hl.
    + destruct Hbad as [?|Hf]; [done|]. rewrite (Hs3 args Hl Hf).
      split; [done|]. split; [done|by eexists].
    + rewrite (Hs2 args Hl). split; [done|]. split; [done|by eexists].
  - intros args port fport Hl Hf.
    pose proof (start_well_formed net_Listen now manager args port fport Hl Hf) as Hwf.
    cbv zeta in Hwf. split.
    + intros Hreg. rewrite StartProxy_registered in Hwf by done. exact Hwf.
    + intros reason Hfree Hbind. unfold StartProxy in Hwf.
      rewrite Hfree, Hbind in Hwf. exact Hwf.
  - eexists. split; [exact Ht1|]. split; [done|by eexists].
  - intros args Hl. eexists. split; [exact (Ht2 args Hl)|]. split; [done|by eexists].
  - intros args port Hl Hfree. by apply stop_not_found.
  - intros request port Hl Hfree. by eapply get_output_not_found.
  - intros Hok request.
    destruct (get_output_total formatTime formatPercent manager request Hok)
      as (manager' & r & Hrun & Hres & Herr).
    exists manager', r. split; [done|]. intros [Hnone _]. rewrite Hnone in Hres.
    by destruct Hres.
Qed.

Lemma handlers_report_errors_witness :
  getInt stopArgs "listen_port" = (8080, true) /\
  proxies NewProxyManager !! 8080 = None /\
  StopProxyHandler_Execute NewProxyManager (ArgsMap stopArgs)
  = Some (NewProxyManager, error_result (NotFound 8080)).
Proof.
  assert (Hl : getInt stopArgs "listen_port" = (8080, true)) by (by vm_compute).
  assert (Hfree : proxies NewProxyManager !! 8080 = None) by reflexivity.
  split; [exact Hl|]. split; [exact Hfree|].
  destruct (handlers_report_errors (fun _ _ => inr "address already in use") 0
              (fun _ => "") (fun _ => "") NewProxyManager)
    as (_ & _ & _ & _ & _ & Hstop & _).
  exact (Hstop stopArgs 8080 Hl Hfree).
Defined.

(** C9 as it is stated fails for get_output: with arguments that are not a
    map, on the empty registry, the handler returns a result, the empty list
    of proxies, and no error. *)
Lemma get_output_wrong_container :
  GetProxyOutputHandler_Execute (fun _ => "") (fun _ => "") NewProxyManager ArgsOther
  = Some (NewProxyManager,
          (Some (NewToolResultText (JObject [("proxies", JArray [])])), None)) /\
  ~ transport_failure
      (Some (NewToolResultText (JObject [("proxies", JArray [])])), None).
Proof. split; [by vm_compute|]. by intros [? _]. Qed.

(** C10. [NewRingBuffer] puts 10485760 in the place of a limit that is zero
    or negative, so the budget of a buffer is positive when it is created and
    stays so; [StartProxyHandler.Execute] does the same with the
    [capture_limit] it reads, which is 0 when the argument is absent or not a
    number. *)
Theorem default_budget :
  (forall m,
     maxSize (NewRingBuffer m) = (if bool_decide (m <= 0) then 10485760 else m)) /\
  (forall m calls,
     exists rb, performAll (NewRingBuffer m) calls = Some rb /\ 0 < maxSize rb) /\
  (forall net_Listen now manager args port fport listener,
     getInt args "listen_port" = (port, true) ->
     getInt args "forward_port" = (fport, true) ->
     proxies manager !! port = None ->
     net_Listen "tcp" (":" +:+ Go.fmt_d port) = inl listener ->
     exists proxy,
       proxies (StartProxyHandler_Execute net_Listen now manager (ArgsMap args)).1 !! port
       = Some proxy /\
       maxSize (Buffer proxy)
       = (let limit := (getInt args "capture_limit").1 in
          if bool_decide (limit <= 0) then 10485760 else limit)).
Proof.
  split_and!.
  - intros m. apply NewRingBuffer_budget.
  - intros m calls. destruct (reachable_rep m calls) as (rb & ps & Hall & Hrep & _).
    exists rb. split; [done|]. by apply (rep_budget _ _ Hrep).
  - intros net_Listen now manager args port fport listener Hl Hf Hfree Hbind.
    pose proof (start_well_formed net_Listen now manager args port fport Hl Hf) as Hwf.
    cbv zeta in Hwf. unfold StartProxy in Hwf. rewrite Hfree, Hbind in Hwf.
    rewrite Hwf. cbn [fst proxies]. rewrite lookup_insert_eq.
    eexists. split; [done|]. cbn [Buffer].
    destruct (NewRingBuffer_budget
                (if bool_decide ((getInt args "capture_limit").1 <= 0)
                 then 10485760 else (getInt args "capture_limit").1)) as [-> _].
    cbv zeta. repeat case_bool_decide; lia.
Qed.

Lemma default_budget_witness :
  getInt startArgs "listen_port" = (8080, true) /\
  getInt startArgs "forward_port" = (3000, true) /\
  (getInt startArgs "capture_limit").1 = -5 /\
  proxies NewProxyManager !! 8080 = None /\
  exists proxy,
    proxies (StartProxyHandler_Execute (fun _ _ => inl 3) 0 NewProxyManager
               (ArgsMap startArgs)).1 !! 8080
    = Some proxy /\
    maxSize (Buffer proxy) = 10485760.
Proof.
  assert (Hl : getInt startArgs "listen_port" = (8080, true)) by (by vm_compute).
  assert (Hf : getInt startArgs "forward_port" = (3000, true)) by (by vm_compute).
  assert (Hfree : proxies NewProxyManager !! 8080 = None) by reflexivity.
  split; [exact Hl|]. split; [exact Hf|]. split; [by vm_compute|]. split; [exact Hfree|].
  destruct default_budget as (_ & _ & Hstart).
  exact (Hstart (fun _ _ => inl 3) 0 NewProxyManager startArgs 8080 3000 3
           Hl Hf Hfree eq_refl).
Defined.

End ToolsClaims.

(** ** More on the capture buffer *)

Section BufferMore.
Import Buffer.
Local Open Scope Z_scope.

Lemma evict_oldest_id budget packetSize ps :
  total ps + packetSize <= budget -> evict_oldest budget packetSize ps = ps.
Proof.
  intros Hfit. destruct ps as [|q ps]; [done|].
  cbn [evict_oldest]. by rewrite bool_decide_eq_false_2 by lia.
Qed.

Lemma foldl_effect_all budget ps : forall acc,
  total (acc ++ ps) <= budget ->
  foldl (effect budget) acc (DoAdd <$> ps) = acc ++ ps.
Proof.
  induction ps as [|p ps IH]; intros acc Hfit; [by rewrite app_nil_r|].
  cbn [fmap list_fmap foldl effect].
  rewrite !total_app in Hfit. cbn [total foldr] in Hfit. fold (total ps) in Hfit.
  pose proof (total_nonneg acc). pose proof (total_nonneg ps).
  pose proof (len_nonneg (RawData p)).
  assert (Hkeep : truncated budget p = p).
  { unfold truncated. by rewrite bool_decide_eq_false_2 by lia. }
  unfold enqueue. rewrite Hkeep, evict_oldest_id by lia.
  rewrite IH; [by rewrite <-app_assoc|].
  rewrite !total_app. cbn [total foldr]. fold (total ps). lia.
Qed.

(** X1. Packets that fit the budget together are all kept, in the order of their
    arrival, however many they are: the growth of the ring loses none. *)
Theorem Add_keeps_what_fits (B : Z) (ps : list CapturedPacket) :
  0 < B -> total ps <= B ->
  exists rb,
    performAll (NewRingBuffer B) (DoAdd <$> ps) = Some rb /\
    GetAll rb = Some (Some <$> ps) /\
    count rb = Go.len ps /\
    currentSize rb = total ps.
Proof.
  intros HB Hfit.
  destruct (performAll_rep (DoAdd <$> ps) _ _ (rep_new B)) as (rb & Hall & Hrep & _).
  destruct (NewRingBuffer_budget B) as [Hmax _].
  rewrite Hmax, bool_decide_eq_false_2 in Hrep by lia.
  rewrite foldl_effect_all in Hrep by done. cbn [app] in Hrep.
  exists rb. split; [done|]. split; [by apply GetAll_rep|].
  split; [apply (rep_count _ _ Hrep)|apply (rep_size _ _ Hrep)].
Qed.

Lemma Add_keeps_what_fits_witness :
  0 < 2500 /\
  total (replicate 2500 (testPacket "Test" 1)) <= 2500 /\
  exists rb,
    performAll (NewRingBuffer 2500) (DoAdd <$> replicate 2500 (testPacket "Test" 1))
    = Some rb /\
    GetAll rb = Some (Some <$> replicate 2500 (testPacket "Test" 1)) /\
    count rb = Go.len (replicate 2500 (testPacket "Test" 1)) /\
    currentSize rb = total (replicate 2500 (testPacket "Test" 1)).
Proof.
  assert (HB : 0 < 2500) by lia.
  assert (Hfit : total (replicate 2500 (testPacket "Test" 1)) <= 2500) by (by vm_compute).
  split; [exact HB|]. split; [exact Hfit|].
  exact (Add_keeps_what_fits 2500 (replicate 2500 (testPacket "Test" 1)) HB Hfit).
Defined.

(** The packets [evict_oldest] drops are a prefix, and no more of them than
    needed: with the last one dropped still in, the packet would not fit. *)
Lemma evict_oldest_split budget packetSize ps :
  exists evicted,
    ps = evicted ++ evict_oldest budget packetSize ps /\
    (forall q, last evicted = Some q ->
       total (q :: evict_oldest budget packetSize ps) + packetSize > budget) /\
    (evict_oldest budget packetSize ps = [] \/
     total (evict_oldest budget packetSize ps) + packetSize <= budget).
Proof.
  induction ps as [|p ps IH].
  - exists []. split; [done|]. split; [done|by left].
  - cbn [evict_oldest]. case_bool_decide as Hover.
    + destruct IH as (evicted & Hsplit & Hlast & Hfit).
      exists (p :: evicted). split; [by rewrite Hsplit at 1|]. split; [|done].
      intros q Hq. destruct evicted as [|e evicted].
      * simpl in Hq. injection Hq as <-. simpl in Hsplit. by rewrite <-Hsplit.
      * apply Hlast. by rewrite last_cons_cons in Hq.
    + exists []. split; [done|]. split; [done|right; lia].
Qed.


(** X3. After [Clear] a buffer answers as a new buffer of the same budget does:
    it is empty, and the same calls from there give the same packets and the
    same statistics. *)
Theorem Clear_is_fresh (m : Z) (before calls : list call) :
  exists rb cleared fresh,
    performAll (NewRingBuffer m) before = Some rb /\
    GetAll (Clear rb) = Some [] /\
    (GetStats (Clear rb)).2.1 = (0, 0) /\
    performAll (Clear rb) calls = Some cleared /\
    performAll (NewRingBuffer m) calls = Some fresh /\
    GetAll cleared = GetAll fresh /\
    (GetStats cleared).2 = (GetStats fresh).2.
Proof.
  destruct (reachable_rep m before) as (rb & ps & Hall & Hrep & Hmax).
  pose proof (Clear_rep _ _ Hrep) as Hclear.
  destruct (performAll_rep calls _ _ Hclear) as (cleared & Hc & Hrepc & Hmaxc).
  destruct (performAll_rep calls _ _ (rep_new m)) as (fresh & Hf & Hrepf & Hmaxf).
  change (maxSize (Clear rb)) with (maxSize rb) in *. rewrite Hmax in *.
  exists rb, cleared, fresh. split; [done|]. split; [done|]. split; [done|].
  split; [done|]. split; [done|].
  split; [by rewrite (GetAll_rep _ _ Hrepc), (GetAll_rep _ _ Hrepf)|].
  unfold GetStats, getUsagePercentLocked. cbn [snd].
  by rewrite (rep_count _ _ Hrepc), (rep_count _ _ Hrepf),
    (rep_size _ _ Hrepc), (rep_size _ _ Hrepf), Hmaxc, Hmaxf.
Qed.

End BufferMore.

(** ** More on the protocol sniffer *)

Section SnifferMore.
Import Proxy.
Local Open Scope Z_scope.

Lemma extractAsciiStrings_emitted data :
  exists runs, runs_of data runs /\ extractAsciiStrings data = emitted runs.
Proof.
  destruct (extract_loop data [] [] (Forall_nil_2 _)) as (runs & Hruns & Heq).
  exists runs. split; [done|].
  unfold extractAsciiStrings, emitted. cbv zeta. rewrite Heq. cbn [app]. clear Heq.
  case_bool_decide as Hmany; [done|].
  symmetry. apply take_ge. unfold Go.len in Hmany. lia.
Qed.

Lemma runs_of_elem data runs :
  runs_of data runs ->
  forall run, run ∈ runs ->
    Forall (fun b => printable b = true) run /\
    exists before after, data = before ++ run ++ after.
Proof.
  induction 1 as [|b rest runs Hb Hrest IH|run0 Hne Hrun|run0 b rest runs Hne Hrun Hb Hrest IH];
    intros run Hin.
  - by apply elem_of_nil in Hin.
  - destruct (IH run Hin) as (Hp & before & after & ->).
    split; [done|]. by exists (b :: before), after.
  - apply list_elem_of_singleton in Hin as ->. split; [done|].
    exists [], []. by rewrite app_nil_r.
  - apply elem_of_cons in Hin as [->|Hin].
    + split; [done|]. by exists [], (b :: rest).
    + destruct (IH run Hin) as (Hp & before & after & ->).
      split; [done|]. exists (run0 ++ b :: before), after.
      by rewrite <-!app_assoc.
Qed.

Lemma length_string_of_list_byte (l : list byte) :
  String.length (string_of_list_byte l) = length l.
Proof. induction l as [|b l IH]; [done|]. simpl. by rewrite <-IH. Qed.

(** X4. What [extractAsciiStrings] never gives: more than 10 strings, a string
    of fewer than 5 bytes, a string with a byte outside 0x20..0x7E, or a
    string that is not a stretch of the chunk. *)
Theorem extractAsciiStrings_sound (data : list byte) :
  (length (extractAsciiStrings data) <= 10)%nat /\
  forall s, s ∈ extractAsciiStrings data ->
    (4 < String.length s)%nat /\
    Forall (fun b => printable b = true) (list_byte_of_string s) /\
    contains data s.
Proof.
  destruct (extractAsciiStrings_emitted data) as (runs & Hruns & ->).
  unfold emitted. split; [rewrite length_take; lia|].
  intros s Hs. apply subseteq_take in Hs.
  apply list_elem_of_fmap in Hs as (run & -> & Hrun).
  apply list_elem_of_filter in Hrun as [Hlong Hrun].
  destruct (runs_of_elem data runs Hruns run Hrun) as (Hp & before & after & Hdata).
  rewrite length_string_of_list_byte, list_byte_of_string_of_list_byte.
  split; [done|]. split; [done|]. exists before, after.
  by rewrite list_byte_of_string_of_list_byte.
Qed.

Lemma extractAsciiStrings_sound_witness :
  "Host: example" ∈ extractAsciiStrings
     ([x00; x01] ++ list_byte_of_string "Host: example" ++ [x0d; x0a]) /\
  (4 < String.length "Host: example")%nat /\
  contains ([x00; x01] ++ list_byte_of_string "Host: example" ++ [x0d; x0a])
    "Host: example".
Proof.
  assert (Hin : "Host: example" ∈ extractAsciiStrings
            ([x00; x01] ++ list_byte_of_string "Host: example" ++ [x0d; x0a])).
  { vm_compute. apply list_elem_of_here. }
  destruct (proj2 (extractAsciiStrings_sound _) _ Hin) as (Hlen & _ & Hsub).
  split; [exact Hin|]. split; [exact Hlen|exact Hsub].
Defined.

(** X5. A chunk of more than 4 bytes, all printable, comes back whole, as the one
    string. *)
Theorem extractAsciiStrings_text (data : list byte) :
  Forall (fun b => printable b = true) data -> (4 < length data)%nat ->
  extractAsciiStrings data = [string_of_list_byte data].
Proof.
  intros Hp Hlong.
  destruct (extractAsciiStrings_emitted data) as (runs & Hruns & ->).
  assert (Hne : data <> []) by (intros ->; simpl in Hlong; lia).
  rewrite (runs_of_functional _ _ Hruns [data] (runs_last data Hne Hp)).
  unfold emitted. rewrite filter_cons, filter_nil.
  by destruct (decide (4 < length data)%nat).
Qed.

Lemma extractAsciiStrings_text_witness :
  Forall (fun b => printable b = true) (list_byte_of_string "GET / HTTP/1.1") /\
  (4 < length (list_byte_of_string "GET / HTTP/1.1"))%nat /\
  extractAsciiStrings (list_byte_of_string "GET / HTTP/1.1") = ["GET / HTTP/1.1"].
Proof.
  assert (Hp : Forall (fun b => printable b = true) (list_byte_of_string "GET / HTTP/1.1")).
  { repeat constructor. }
  assert (Hlong : (4 < length (list_byte_of_string "GET / HTTP/1.1"))%nat).
  { vm_compute. lia. }
  split; [exact Hp|]. split; [exact Hlong|].
  exact (extractAsciiStrings_text _ Hp Hlong).
Defined.

(** The labels that go by the head of the chunk. *)
Lemma detectProtocol_http1 data :
  detectProtocol data = "HTTP/1.x" <-> rule_http1 data.
Proof.
  pose proof (rule_http1_reflect data) as R1. cbv zeta in R1.
  unfold detectProtocol. cbv zeta.
  match type of R1 with ?b = true <-> _ => destruct b end.
  - split; [intros _; by apply R1|done].
  - split; [|intros Hr; by apply R1 in Hr].
    repeat (match goal with |- context [if ?c then _ else _] => destruct c end);
      discriminate.
Qed.

Lemma detectProtocol_http2 data :
  detectProtocol data = "HTTP/2" <-> ~ rule_http1 data /\ rule_http2 data.
Proof.
  pose proof (rule_http1_reflect data) as R1. cbv zeta in R1.
  pose proof (begins_with_reflect data "PRI * HTTP/2.0") as R2.
  fold (rule_http2 data) in R2.
  unfold detectProtocol. cbv zeta.
  match type of R1 with ?b = true <-> _ => destruct b end.
  - split; [discriminate|]. intros [Hn _]. destruct Hn. by apply R1.
  - match type of R2 with ?b = true <-> _ => destruct b end.
    + split; [|done]. intros _. split; [|by apply R2].
      intros Hr. by apply R1 in Hr.
    + split.
      * repeat (match goal with |- context [if ?c then _ else _] => destruct c end);
          discriminate.
      * intros [_ Hr]. by apply R2 in Hr.
Qed.

Lemma begins_with_app data more literal :
  begins_with data literal -> begins_with (data ++ more) literal.
Proof. intros [rest ->]. exists (rest ++ more). by rewrite <-app_assoc. Qed.

(** X6. A chunk labelled by its head keeps the label when more bytes follow in
    the same chunk: "HTTP/1.x" and "HTTP/2" do not depend on where the read
    ended. *)
Theorem detectProtocol_head_stable (data more : list byte) :
  (detectProtocol data = "HTTP/1.x" -> detectProtocol (data ++ more) = "HTTP/1.x") /\
  (detectProtocol data = "HTTP/2" -> detectProtocol (data ++ more) = "HTTP/2").
Proof.
  split.
  - rewrite !detectProtocol_http1. unfold rule_http1.
    intros H. repeat destruct H as [H|H]; eauto 10 using begins_with_app.
  - rewrite !detectProtocol_http2. intros [_ H2]. split; [|by apply begins_with_app].
    destruct H2 as [rest ->]. rewrite <-app_assoc.
    intros H1. apply rule_http1_reflect in H1. cbv zeta in H1.
    change (string_of_list_byte (list_byte_of_string "PRI * HTTP/2.0" ++ rest ++ more))
      with ("PRI * HTTP/2.0" +:+ string_of_list_byte (rest ++ more)) in H1.
    simpl in H1. discriminate.
Qed.

Lemma detectProtocol_head_stable_witness :
  detectProtocol (list_byte_of_string "GET /ind") = "HTTP/1.x" /\
  detectProtocol (list_byte_of_string "GET /ind" ++ list_byte_of_string "ex.html") = "HTTP/1.x".
Proof.
  assert (H : detectProtocol (list_byte_of_string "GET /ind") = "HTTP/1.x") by reflexivity.
  split; [exact H|].
  exact (proj1 (detectProtocol_head_stable _ (list_byte_of_string "ex.html")) H).
Defined.

End SnifferMore.

(** ** More on the registry and on [captureData] *)

Section ProxyMore.
Import Buffer Proxy.
Local Open Scope Z_scope.

Variable hex_Dump : list byte -> string.

Lemma length_extractAsciiStrings data : (length (extractAsciiStrings data) <= 10)%nat.
Proof.
  destruct (extractAsciiStrings_emitted data) as (runs & _ & ->).
  unfold emitted. rewrite length_take. lia.
Qed.

Lemma evict_oldest_suffix budget packetSize ps :
  exists evicted, ps = evicted ++ evict_oldest budget packetSize ps.
Proof.
  destruct (evict_oldest_split budget packetSize ps) as (evicted & Hsplit & _).
  by exists evicted.
Qed.

Lemma instance_ok_new listenPort host fport listener limit now :
  instance_ok listenPort
    {| ListenPort := listenPort; ForwardHost := host; ForwardPort := fport;
       Listener := listener; Buffer := NewRingBuffer limit;
       Stats := {| BytesCaptured := 0; Connections := 0 |};
       Done := false; StartedAt := now; connections := 0 |}.
Proof.
  split; [done|]. split; [done|]. exists []. split; [apply rep_new|].
  split; [done|]. split; [done|]. cbn [Buffer total foldr].
  destruct (NewRingBuffer_budget limit) as [_ Hpos]. lia.
Qed.

Lemma registry_ok_StartProxy net_Listen now pm port host fport limit :
  registry_ok pm -> registry_ok (StartProxy net_Listen now pm port host fport limit).1.
Proof.
  intros Hok. unfold StartProxy.
  destruct (proxies pm !! port); [done|].
  destruct (net_Listen _ _); [|done].
  apply map_Forall_insert_2; [apply instance_ok_new|done].
Qed.

Lemma registry_ok_all_open pm : registry_ok pm -> all_open pm.
Proof. intros Hok port p Hp. by destruct (Hok port p Hp). Qed.

Lemma registry_ok_buffers_ok pm : registry_ok pm -> Tools.buffers_ok pm.
Proof. intros Hok port p Hp. destruct (Hok port p Hp) as (_ & _ & ps & Hrep & _). by exists ps. Qed.

Lemma registry_ok_StopProxy pm port :
  registry_ok pm ->
  exists pm' r, StopProxy pm port = Some (pm', r) /\ registry_ok pm'.
Proof.
  intros Hok. unfold StopProxy.
  destruct (proxies pm !! port) as [p|] eqn:Hp; [|by eexists _, _].
  destruct (Hok port p Hp) as (-> & _).
  eexists _, _. split; [done|]. by apply map_Forall_delete.
Qed.

Lemma registry_ok_StopAll pm :
  registry_ok pm -> StopAll pm = Some NewProxyManager.
Proof.
  intros Hok. unfold StopAll. rewrite bool_decide_eq_true_2; [done|].
  by apply registry_ok_all_open.
Qed.

(** What [captureData] does to an instance. *)
Lemma captureData_ok now listenPort p data direction :
  instance_ok listenPort p ->
  exists p',
    captureData hex_Dump now p data direction = Some p' /\
    instance_ok listenPort p' /\
    BytesCaptured (Stats p') = BytesCaptured (Stats p) + Go.len data /\
    maxSize (Buffer p') = maxSize (Buffer p).
Proof.
  intros (Hdone & Hport & ps & Hrep & Hps & Hcount & Hfits).
  unfold captureData.
  assert (Hhex : exists hexDumpData,
    (if bool_decide (Go.len data > 200) then Go.slice data 0 200 else Some data)
    = Some hexDumpData).
  { case_bool_decide; [|by eexists]. rewrite slice_to by lia. by eexists. }
  destruct Hhex as [hexDumpData ->]. cbn [mbind option_bind].
  set (capture := {| Timestamp := now; Direction := direction; Bytes := Go.len data;
                     HexDump := hex_Dump hexDumpData;
                     AsciiStrings := extractAsciiStrings data;
                     DetectedProtocol := detectProtocol data; RawData := data |}).
  destruct (Add_rep (Buffer p) ps capture Hrep) as (buffer & -> & Hrep' & Hmax).
  cbn [mbind option_bind]. eexists. split; [done|].
  pose proof (rep_budget _ _ Hrep) as Hb.
  split; [|done].
  split; [done|]. split; [done|]. cbn [Buffer Stats BytesCaptured].
  eexists. split; [exact Hrep'|]. rewrite Hmax. unfold enqueue.
  destruct (evict_oldest_suffix (maxSize (Buffer p))
              (Go.len (RawData (truncated (maxSize (Buffer p)) capture))) ps)
    as (evicted & Hsplit).
  set (kept := evict_oldest _ _ ps) in *.
  pose proof (len_nonneg data) as Hdata.
  assert (Hcut : Go.len (RawData (truncated (maxSize (Buffer p)) capture))
                 = Z.min (Go.len data) (maxSize (Buffer p))).
  { unfold truncated. change (RawData capture) with data.
    case_bool_decide as Hbig.
    - cbn [RawData]. unfold Go.len in *. rewrite length_take. lia.
    - change (RawData capture) with data. lia. }
  split.
  - apply Forall_app. split.
    + rewrite Hsplit in Hps. by apply Forall_app in Hps as [_ ?].
    + apply Forall_singleton. split.
      * rewrite Hcut. f_equal. unfold truncated. by case_bool_decide.
      * unfold truncated. case_bool_decide; apply length_extractAsciiStrings.
  - split.
    + rewrite total_app. cbn [total foldr]. rewrite Hcut.
      rewrite Hsplit, total_app in Hcount.
      pose proof (total_nonneg evicted). fold (total kept) in *. lia.
    + apply (enqueue_fits (maxSize (Buffer p)) ps capture). lia.
Qed.

Lemma registry_ok_captureOn pm listenPort now data direction :
  registry_ok pm ->
  exists pm',
    captureOn hex_Dump pm listenPort now data direction = Some pm' /\ registry_ok pm'.
Proof.
  intros Hok. unfold captureOn.
  destruct (proxies pm !! listenPort) as [p|] eqn:Hp; [|by exists pm].
  destruct (captureData_ok now listenPort p data direction (Hok _ _ Hp))
    as (p' & -> & Hp' & _).
  cbn [mbind option_bind]. eexists. split; [done|].
  by apply map_Forall_insert_2.
Qed.

Lemma captureAll_registered chunks : forall registry listenPort p,
  instance_ok listenPort p ->
  exists p',
    captureAll hex_Dump {| proxies := <[listenPort := p]> registry |} listenPort chunks
    = Some {| proxies := <[listenPort := p']> registry |} /\
    instance_ok listenPort p' /\
    BytesCaptured (Stats p')
    = BytesCaptured (Stats p) + foldr (fun chunk acc => Go.len chunk.1.2 + acc) 0 chunks.
Proof.
  induction chunks as [|[[now data] direction] chunks IH]; intros registry listenPort p Hp.
  - exists p. split; [done|]. split; [done|]. simpl. lia.
  - cbn [captureAll]. unfold captureOn. cbn [proxies]. rewrite lookup_insert_eq.
    destruct (captureData_ok now listenPort p data direction Hp)
      as (p1 & -> & Hp1 & Hbytes & _).
    cbn [mbind option_bind]. rewrite insert_insert_eq.
    destruct (IH registry listenPort p1 Hp1) as (p' & -> & Hp' & Hbytes').
    exists p'. split; [done|]. split; [done|].
    rewrite Hbytes', Hbytes. cbn [foldr fst snd]. lia.
Qed.

(** X7. A proxy started on a free port, whatever its relays capture, and however
    small its budget: [StopProxy] gives the registry back as it was before
    the start, and reports the bytes of all the chunks, evicted or not. *)
Theorem start_capture_stop net_Listen now pm port host fport limit listener
    (chunks : list (Z * list byte * string)) :
  proxies pm !! port = None ->
  net_Listen "tcp" (":" +:+ Go.fmt_d port) = inl listener ->
  exists pm',
    captureAll hex_Dump (StartProxy net_Listen now pm port host fport limit).1 port chunks
    = Some pm' /\
    StopProxy pm' port
    = Some (pm, (foldr (fun chunk acc => Go.len chunk.1.2 + acc) 0 chunks, None)).
Proof.
  intros Hfree Hbind. unfold StartProxy. rewrite Hfree, Hbind. cbn [fst].
  destruct (captureAll_registered chunks (proxies pm) port _
              (instance_ok_new port host fport listener limit now))
    as (p' & -> & (Hdone & _) & Hbytes).
  eexists. split; [done|].
  unfold StopProxy. cbn [proxies]. rewrite lookup_insert_eq, Hdone.
  rewrite delete_insert_id by done. rewrite Hbytes. cbn [Stats BytesCaptured].
  by destruct pm.
Qed.

(** X8. After a stop the port is free in the registry: a second stop finds no
    proxy and changes nothing, and a start on the port is not refused for a
    proxy running there. *)
Theorem stop_frees_port pm port :
  all_open pm -> is_Some (proxies pm !! port) ->
  exists pm' bytesCaptured,
    StopProxy pm port = Some (pm', (bytesCaptured, None)) /\
    StopProxy pm' port = Some (pm', (0, Some (NotFound port))) /\
    forall net_Listen now host fport limit,
      (StartProxy net_Listen now pm' port host fport limit).2
      <> Some (AlreadyRunning port).
Proof.
  intros Hopen [p Hp]. unfold StopProxy at 1. rewrite Hp, (Hopen port p Hp).
  eexists _, _. split; [done|].
  unfold StopProxy, StartProxy. cbn [proxies]. rewrite lookup_delete_eq.
  split; [done|]. intros net_Listen now host fport limit.
  destruct (net_Listen _ _) as [listener|reason]; [done|]. cbn [snd].
  intros Heq. injection Heq as Heq.
  by destruct (AlreadyRunning_not_BindError port port reason).
Qed.

End ProxyMore.

Section ProxyMoreWitnesses.
Import Buffer Proxy.
Local Open Scope Z_scope.

Lemma start_capture_stop_witness :
  proxies NewProxyManager !! 8080 = None /\
  exists pm',
    captureAll (fun _ => "") (StartProxy (fun _ _ => inl 3) 0 NewProxyManager 8080
                                "localhost" 3000 4).1 8080
      [(1, list_byte_of_string "GET / HTTP/1.1", "Client->Server");
       (2, list_byte_of_string "HTTP/1.1 200 OK", "Server->Client")]
    = Some pm' /\
    StopProxy pm' 8080 = Some (NewProxyManager, (29, None)).
Proof.
  assert (Hfree : proxies NewProxyManager !! 8080 = None) by reflexivity.
  split; [exact Hfree|].
  exact (start_capture_stop (fun _ => "") (fun _ _ => inl 3) 0 NewProxyManager 8080
           "localhost" 3000 4 3
           [(1, list_byte_of_string "GET / HTTP/1.1", "Client->Server");
            (2, list_byte_of_string "HTTP/1.1 200 OK", "Server->Client")]
           Hfree eq_refl).
Defined.

Lemma stop_frees_port_witness :
  all_open testManager /\
  is_Some (proxies testManager !! 19090) /\
  exists pm' bytesCaptured,
    StopProxy testManager 19090 = Some (pm', (bytesCaptured, None)) /\
    StopProxy pm' 19090 = Some (pm', (0, Some (NotFound 19090))) /\
    forall net_Listen now host fport limit,
      (StartProxy net_Listen now pm' 19090 host fport limit).2
      <> Some (AlreadyRunning 19090).
Proof.
  assert (Hopen : all_open testManager) by apply all_open_StartProxy, all_open_new.
  assert (Hreg : is_Some (proxies testManager !! 19090)) by (by eexists).
  split; [exact Hopen|]. split; [exact Hreg|].
  exact (stop_frees_port testManager 19090 Hopen Hreg).
Defined.

End ProxyMoreWitnesses.

(** ** More on the relay *)

Section RelayMore.
Import Proxy.

(** A step of a relay leaves the channels alone, or it is the close of
    [done]: the first one, after which the relay returns, or one more, which
    is the panic. *)
Lemma copyWithCapture_step_cases ch pc ev ch' pc' :
  copyWithCapture_step ch pc ev = Some (ch', pc') ->
  finished pc = false /\
  ((ch' = ch /\ pc' <> Panicked) \/
   (connDone ch = false /\ connDone ch' = true /\ closes ch' = S (closes ch) /\
    pc' = Returned) \/
   (connDone ch = true /\ connDone ch' = true /\ closes ch' = S (closes ch) /\
    pc' = Panicked)).
Proof.
  destruct ch as [iD d n].
  destruct pc, ev as [|[| |k]|[|]]; try discriminate; cbn;
    repeat case_bool_decide; destruct d, iD; cbn;
    intros [= <- <-]; (split; [done|]); cbn; auto 10.
Qed.

Lemma closes_ok_step_one (ch ch' : channels) (a a' b : place) :
  finished a = false ->
  ((ch' = ch /\ a' <> Panicked) \/
   (connDone ch = false /\ connDone ch' = true /\ closes ch' = S (closes ch) /\
    a' = Returned) \/
   (connDone ch = true /\ connDone ch' = true /\ closes ch' = S (closes ch) /\
    a' = Panicked)) ->
  ((connDone ch = false <-> closes ch = 0%nat) /\
   (closes ch <= (if finished a then 1 else 0) + (if finished b then 1 else 0))%nat /\
   (a = Panicked \/ b = Panicked <-> closes ch = 2%nat) /\
   ~ (a = Panicked /\ b = Panicked)) ->
  (connDone ch' = false <-> closes ch' = 0%nat) /\
  (closes ch' <= (if finished a' then 1 else 0) + (if finished b then 1 else 0))%nat /\
  (a' = Panicked \/ b = Panicked <-> closes ch' = 2%nat) /\
  ~ (a' = Panicked /\ b = Panicked).
Proof.
  intros Ha Hcases (H1 & H2 & H3 & H4). rewrite Ha in H2.
  assert (Hna : a <> Panicked) by (intros ->; discriminate).
  destruct Hcases as [[-> Hna']|[(Hd & Hd' & Hn & ->)|(Hd & Hd' & Hn & ->)]].
  - split; [done|]. split; [destruct (finished a'); lia|].
    split; [|tauto]. split; [intros [?|?]; [done|apply H3; auto]|].
    intros Hn. apply H3 in Hn as [?|?]; [done|auto].
  - apply H1 in Hd. rewrite Hn, Hd, Hd'. cbn [finished].
    split; [split; [discriminate|lia]|]. split; [lia|].
    assert (Hnb : b <> Panicked).
    { intros ->. assert (closes ch = 2%nat) by (apply H3; auto). lia. }
    split; [split; [intros [?|?]; done|lia]|]. by intros [? _].
  - assert (Hn0 : closes ch <> 0%nat).
    { intros H0. apply H1 in H0. congruence. }
    assert (Hnb : b <> Panicked).
    { intros ->. assert (closes ch = 2%nat) by (apply H3; auto).
      cbn [finished] in H2. lia. }
    rewrite Hn, Hd'. cbn [finished].
    split; [split; [discriminate|lia]|].
    split; [destruct (finished b); lia|].
    split; [split; [intros _; destruct (finished b); lia|auto]|].
    by intros [_ ?].
Qed.

Lemma closes_ok_step c who ev c' :
  connection_step c who ev = Some c' -> closes_ok c -> closes_ok c'.
Proof.
  destruct c as [ch a b]. unfold connection_step, closes_ok.
  cbn [chans clientToServer serverToClient].
  destruct who.
  - destruct (copyWithCapture_step ch a ev) as [[ch' a']|] eqn:Hstep; [|done].
    intros [= <-]. cbn [chans clientToServer serverToClient].
    destruct (copyWithCapture_step_cases _ _ _ _ _ Hstep) as [Hfin Hcases].
    by apply closes_ok_step_one.
  - destruct (copyWithCapture_step ch b ev) as [[ch' b']|] eqn:Hstep; [|done].
    intros [= <-]. cbn [chans clientToServer serverToClient].
    destruct (copyWithCapture_step_cases _ _ _ _ _ Hstep) as [Hfin Hcases].
    intros (H1 & H2 & H3 & H4).
    destruct (closes_ok_step_one ch ch' b b' a Hfin Hcases) as (G1 & G2 & G3 & G4).
    { split; [done|]. split; [lia|]. split; [tauto|tauto]. }
    split; [done|]. split; [lia|]. split; [tauto|tauto].
Qed.

Lemma closes_ok_run schedule : forall c c',
  connection_run c schedule = Some c' -> closes_ok c -> closes_ok c'.
Proof.
  induction schedule as [|[who ev] schedule IH]; intros c c' Hrun Hok.
  - by injection Hrun as <-.
  - cbn [connection_run] in Hrun.
    destruct (connection_step c who ev) as [c1|] eqn:Hstep; [|done].
    cbn [mbind option_bind] in Hrun.
    eapply IH; [exact Hrun|]. by eapply closes_ok_step.
Qed.

(** X9. On every schedule of a connection, [close(done)] runs twice at most; it
    runs twice exactly when one relay has panicked, and then the other has
    returned; and [done] is closed exactly when it has run. *)
Theorem relay_closes (stopped : bool) (schedule : list (relay * event)) (c : connection) :
  connection_run (handleConnection_start stopped) schedule = Some c ->
  (closes (chans c) <= 2)%nat /\
  (closes (chans c) = 2%nat <->
   clientToServer c = Panicked \/ serverToClient c = Panicked) /\
  (clientToServer c = Panicked -> serverToClient c = Returned) /\
  (serverToClient c = Panicked -> clientToServer c = Returned) /\
  (connDone (chans c) = true <-> (1 <= closes (chans c))%nat).
Proof.
  intros Hrun.
  assert (Hstart : closes_ok (handleConnection_start stopped)).
  { unfold closes_ok. cbn. split; [done|]. split; [lia|].
    split; [split; [intros [?|?]; done|done]|]. by intros [? _]. }
  destruct (closes_ok_run _ _ _ Hrun Hstart) as (H1 & H2 & H3 & H4).
  assert (Hle : (closes (chans c) <= 2)%nat).
  { destruct (finished (clientToServer c)), (finished (serverToClient c)); lia. }
  split; [done|]. split; [by split; apply H3|].
  assert (Hother : forall a b : place,
    (closes (chans c) <= (if finished a then 1 else 0) + (if finished b then 1 else 0))%nat ->
    closes (chans c) = 2%nat -> b <> Panicked -> b = Returned).
  { intros a b Hab Hn Hb. destruct b; cbn [finished] in Hab; try done;
      destruct (finished a); lia. }
  split; [|split].
  - intros Ha. apply (Hother (clientToServer c)); [done|apply H3; auto|].
    intros Hb. by apply H4.
  - intros Hb. apply (Hother (serverToClient c)); [lia|apply H3; auto|].
    intros Ha. by apply H4.
  - destruct (connDone (chans c)).
    + split; [intros _|done].
      destruct (Nat.eq_dec (closes (chans c)) 0) as [H0|H0]; [|lia].
      apply H1 in H0. done.
    + split; [done|]. intros Hn. assert (closes (chans c) = 0%nat) by by apply H1. lia.
Qed.

Lemma relay_closes_witness :
  exists c,
    connection_run (handleConnection_start false) orderly_schedule = Some c /\
    (closes (chans c) <= 2)%nat /\
    (connDone (chans c) = true <-> (1 <= closes (chans c))%nat).
Proof.
  eexists. split; [reflexivity|].
  destruct (relay_closes false orderly_schedule _ eq_refl) as (H1 & _ & _ & _ & H5).
  split; [exact H1|exact H5].
Defined.

Lemma copyWithCapture_step_left ch pc ev ch' pc' :
  instanceDone ch || connDone ch = true ->
  copyWithCapture_step ch pc ev = Some (ch', pc') ->
  instanceDone ch' || connDone ch' = true /\ (steps_left pc' < steps_left pc)%nat.
Proof.
  destruct ch as [iD d n]. cbn [instanceDone connDone].
  destruct pc, ev as [|[| |k]|[|]]; try discriminate; cbn;
    repeat case_bool_decide; destruct d, iD; try discriminate; cbn;
    intros _ [= <- <-]; cbn; (split; [done|lia]).
Qed.

(** X10. Once a stop channel is closed, that of the instance or that of the
    connection, a relay has at most 4 steps left, whatever its reads and
    writes return: at most the read and the write it is at, the check and
    the close. *)
Theorem relay_unwinds ch pc (events : list event) ch' pc' :
  instanceDone ch || connDone ch = true ->
  copyWithCapture_run ch pc events = Some (ch', pc') ->
  (length events <= steps_left pc)%nat /\ (length events <= 4)%nat.
Proof.
  intros Hstop Hrun.
  assert (Hlen : (length events + steps_left pc' <= steps_left pc)%nat).
  { revert ch pc Hstop Hrun. induction events as [|ev events IH]; intros ch pc Hstop Hrun.
    - injection Hrun as <- <-. simpl. lia.
    - cbn [copyWithCapture_run] in Hrun.
      destruct (copyWithCapture_step ch pc ev) as [[ch1 pc1]|] eqn:Hstep; [|done].
      cbn [mbind option_bind] in Hrun.
      destruct (copyWithCapture_step_left _ _ _ _ _ Hstop Hstep) as [Hstop1 Hless].
      specialize (IH ch1 pc1 Hstop1 Hrun). simpl. lia. }
  split; [lia|]. destruct pc; simpl in Hlen; lia.
Qed.

Lemma relay_unwinds_witness :
  instanceDone {| instanceDone := true; connDone := false; closes := 0 |}
  || connDone {| instanceDone := true; connDone := false; closes := 0 |} = true /\
  copyWithCapture_run {| instanceDone := true; connDone := false; closes := 0 |} AtRead
    [ReadReturns (ReadBytes 16); WriteReturns WriteOk; Internal]
  = Some ({| instanceDone := true; connDone := false; closes := 0 |}, Returned) /\
  (length [ReadReturns (ReadBytes 16); WriteReturns WriteOk; Internal] <= 4)%nat.
Proof.
  assert (Hstop : instanceDone {| instanceDone := true; connDone := false; closes := 0 |}
                  || connDone {| instanceDone := true; connDone := false; closes := 0 |}
                  = true) by reflexivity.
  assert (Hrun : copyWithCapture_run
                   {| instanceDone := true; connDone := false; closes := 0 |} AtRead
                   [ReadReturns (ReadBytes 16); WriteReturns WriteOk; Internal]
                 = Some ({| instanceDone := true; connDone := false; closes := 0 |},
                         Returned)) by reflexivity.
  split; [exact Hstop|]. split; [exact Hrun|].
  exact (proj2 (relay_unwinds _ _ _ _ _ Hstop Hrun)).
Defined.

End RelayMore.

(** ** More on the tool handlers *)

Section FloatFacts.
Local Open Scope Z_scope.

Lemma iter_xO_value k : forall p,
  Z.pos (Pos.iter xO p k) = Z.pos p * 2 ^ Z.pos k /\
  digits2_pos (Pos.iter xO p k) = (digits2_pos p + k)%positive.
Proof.
  induction k as [|k IH] using Pos.peano_ind; intros p.
  - cbn. split; [lia|]. lia.
  - rewrite Pos.iter_succ. destruct (IH p) as [Hv Hd]. split.
    + rewrite Pos2Z.inj_xO, Hv, Pos2Z.inj_succ, Z.pow_succ_r by lia. lia.
    + cbn [digits2_pos]. rewrite Hd. lia.
Qed.

Lemma digits2_pos_lower p : 2 ^ (Z.pos (digits2_pos p) - 1) <= Z.pos p.
Proof.
  induction p as [p IH|p IH|]; cbn [digits2_pos]; [| |done].
  - rewrite Pos2Z.inj_succ.
    replace (Z.succ (Z.pos (digits2_pos p)) - 1) with (Z.succ (Z.pos (digits2_pos p) - 1))
      by lia.
    rewrite Z.pow_succ_r by lia. lia.
  - rewrite Pos2Z.inj_succ.
    replace (Z.succ (Z.pos (digits2_pos p)) - 1) with (Z.succ (Z.pos (digits2_pos p) - 1))
      by lia.
    rewrite Z.pow_succ_r by lia. lia.
Qed.

Lemma digits2_pos_small p : Z.pos p < 2 ^ 53 -> Z.pos (digits2_pos p) <= 53.
Proof.
  intros Hp. destruct (Z_le_gt_dec (Z.pos (digits2_pos p)) 53) as [|Hbig]; [done|].
  pose proof (digits2_pos_lower p) as Hlow.
  assert (2 ^ 53 <= 2 ^ (Z.pos (digits2_pos p) - 1)) by (apply Z.pow_le_mono_r; lia).
  lia.
Qed.

(** An integer below [2^53] becomes the [float64] with the mantissa moved up
    to 53 digits. *)
Lemma binary_round_small sign p :
  Z.pos p < 2 ^ 53 ->
  exists m e,
    binary_round Go.prec Go.emax sign p 0 = S754_finite sign m e /\
    - 52 <= e <= 0 /\ Z.pos m = Z.pos p * 2 ^ (- e).
Proof.
  intros Hp. pose proof (digits2_pos_small p Hp) as Hd.
  assert (Hfexp : forall d, 1 <= d <= 53 -> fexp Go.prec Go.emax d = d - 53).
  { intros d Hdr. unfold fexp, emin, Go.prec, Go.emax. lia. }
  assert (Haux : forall m e, Z.pos (digits2_pos m) = 53 -> - 52 <= e <= 0 ->
            binary_round_aux Go.prec Go.emax sign (Z.pos m) e loc_Exact
            = S754_finite sign m e).
  { intros m e Hm He. unfold binary_round_aux, shr_fexp.
    cbn [Zdigits2 shr_record_of_loc]. rewrite Hm.
    assert (Hx : fexp Go.prec Go.emax (53 + e) - e = 0).
    { unfold fexp, emin, Go.prec, Go.emax. lia. }
    rewrite Hx. cbn [shr shr_m loc_of_shr_record round_nearest_even Zdigits2
                     shr_record_of_loc].
    rewrite Hm, Hx. cbn [shr shr_m].
    assert (Hle : (e <=? Go.emax - Go.prec) = true).
    { apply Z.leb_le. unfold Go.emax, Go.prec. lia. }
    by rewrite Hle. }
  unfold binary_round. rewrite Z.add_0_r, Hfexp by lia. unfold shl_align.
  destruct (Z.pos (digits2_pos p) - 53 - 0) as [|k|k] eqn:Hk; [|lia|].
  - exists p, 0. rewrite Haux by lia. split; [done|]. split; [lia|]. cbn. lia.
  - destruct (iter_xO_value k p) as [Hv Hdig].
    exists (Pos.iter xO p k), (Z.pos (digits2_pos p) - 53).
    rewrite Haux by lia. split; [done|]. split; [lia|].
    rewrite Hv. do 2 f_equal. lia.
Qed.

Lemma int_of_float64_of_int n :
  - 2 ^ 53 < n < 2 ^ 53 -> Go.int_of_float64 (Go.float64_of_int n) = n.
Proof.
  intros Hn. unfold Go.float64_of_int, binary_normalize.
  assert (Hcase : forall sign p, Z.pos p < 2 ^ 53 ->
            Go.int_of_float64 (binary_round Go.prec Go.emax sign p 0)
            = if sign then Z.neg p else Z.pos p).
  { intros sign p Hp.
    destruct (binary_round_small sign p Hp) as (m & e & -> & He & Hm).
    unfold Go.int_of_float64, Go.minInt.
    assert (Hmag : (if bool_decide (0 <= e) then Z.pos m * 2 ^ e
                    else Z.pos m / 2 ^ (- e)) = Z.pos p).
    { case_bool_decide.
      - assert (e = 0) as -> by lia. rewrite Hm. cbn. lia.
      - rewrite Hm. apply Z.div_mul. apply Z.pow_nonzero; lia. }
    rewrite Hmag.
    assert (2 ^ 53 < 2 ^ 63) by (by vm_compute).
    destruct sign; rewrite bool_decide_eq_true_2; lia. }
  destruct n as [|p|p]; [done|apply Hcase; lia|apply Hcase; lia].
Qed.

End FloatFacts.

Section ToolsMore.
Import Buffer Proxy Tools.
Local Open Scope Z_scope.

Variable formatTime : Z -> string.
Variable formatPercent : Go.float64 -> string.
Variable hex_Dump : list byte -> string.

(** X11. A number of a JSON text that is an integer of less than 54 bits is read
    as that integer: [getInt] undoes the [float64] the number arrives as. *)
Theorem getInt_json_number (args : gmap string value) (key : string) (n : Z) :
  - 2 ^ 53 < n < 2 ^ 53 ->
  args !! key = Some (VFloat64 (Go.float64_of_int n)) ->
  getInt args key = (n, true).
Proof.
  intros Hn Hkey. unfold getInt. rewrite Hkey. by rewrite int_of_float64_of_int.
Qed.

(** The registry part of the result of a start. *)
Lemma start_handler_registry net_Listen now manager request :
  (StartProxyHandler_Execute net_Listen now manager request).1 = manager \/
  exists port host fport limit,
    (StartProxyHandler_Execute net_Listen now manager request).1
    = (StartProxy net_Listen now manager port host fport limit).1.
Proof.
  unfold StartProxyHandler_Execute. destruct request as [args|]; [|by left].
  destruct (getInt args "listen_port") as [listenPort [|]]; [|by left]. cbn [negb].
  destruct (getString args "forward_host") as [forwardHost ?].
  destruct (getInt args "forward_port") as [forwardPort [|]]; [|by left]. cbn [negb].
  destruct (getInt args "capture_limit") as [captureLimit ?].
  right. eexists _, _, _, _.
  destruct (StartProxy _ _ _ _ _ _ _) as [manager' [msg|]] eqn:Hstart;
    cbn [fst]; by rewrite Hstart.
Qed.

Lemma instance_ok_pass clearBuffer listenPort proxy :
  instance_ok listenPort proxy ->
  exists entry,
    proxyEntry formatTime formatPercent clearBuffer proxy
    = Some (entry, if clearBuffer then cleared proxy else proxy) /\
    instance_ok listenPort (if clearBuffer then cleared proxy else proxy).
Proof.
  intros (Hdone & Hport & ps & Hrep & Hps & Hcount & Hfits).
  unfold proxyEntry. rewrite (GetAll_rep _ _ Hrep). cbn [mbind option_bind].
  destruct (mapM_is_Some_2 (captureEntry formatTime) (Some <$> ps)) as [entries ->].
  { apply Forall_fmap, Forall_forall. intros q _. by eexists. }
  cbn [mbind option_bind GetStats]. destruct clearBuffer.
  - eexists. split; [done|]. split; [done|]. split; [done|].
    exists []. cbn [cleared Buffer Stats]. split; [by eapply Clear_rep|].
    split; [done|]. pose proof (total_nonneg ps). pose proof (rep_budget _ _ Hrep).
    cbn [total foldr Clear maxSize]. lia.
  - eexists. split; [by destruct proxy|].
    split; [done|]. split; [done|]. by exists ps.
Qed.

Lemma proxyEntries_pass clearBuffer todo : forall registry,
  map_Forall instance_ok registry ->
  Forall (fun entry => instance_ok entry.1 entry.2) todo ->
  exists entries,
    proxyEntries formatTime formatPercent clearBuffer registry todo
    = Some (foldl (fun r entry =>
                     <[entry.1 := if clearBuffer then cleared entry.2 else entry.2]> r)
                  registry todo, entries) /\
    length entries = length todo /\
    map_Forall instance_ok
      (foldl (fun r entry =>
                <[entry.1 := if clearBuffer then cleared entry.2 else entry.2]> r)
             registry todo).
Proof.
  induction todo as [|[port proxy] todo IH]; intros registry Hreg Htodo.
  - by exists [].
  - apply Forall_cons in Htodo as [Hproxy Htodo]. cbn [proxyEntries foldl fst snd] in *.
    destruct (instance_ok_pass clearBuffer port proxy Hproxy) as (entry & -> & Hok).
    cbn [mbind option_bind].
    destruct (IH (<[port := if clearBuffer then cleared proxy else proxy]> registry))
      as (entries & -> & Hlen & Hfinal); [by apply map_Forall_insert_2|done|].
    cbn [mbind option_bind]. exists (entry :: entries).
    split; [done|]. split; [simpl; by rewrite Hlen|done].
Qed.

Lemma registry_ok_get_output manager request :
  registry_ok manager ->
  exists manager' r,
    GetProxyOutputHandler_Execute formatTime formatPercent manager request
    = Some (manager', r) /\ registry_ok manager'.
Proof.
  intros Hok. unfold GetProxyOutputHandler_Execute.
  destruct (getInt _ "listen_port") as [listenPort hasPort].
  set (clearBuffer := match _ !! "clear_buffer" with Some (VBool cb) => cb | _ => true end).
  destruct hasPort.
  - unfold GetProxy. destruct (proxies manager !! listenPort) as [proxy|] eqn:Hp;
      [|by eexists _, _].
    destruct (proxyEntries_pass clearBuffer [(listenPort, proxy)] (proxies manager) Hok)
      as (entries & -> & _ & Hfinal).
    { apply Forall_singleton. by apply (Hok listenPort). }
    cbn [mbind option_bind]. by eexists _, _.
  - destruct (proxyEntries_pass clearBuffer (GetAllProxies manager) (proxies manager) Hok)
      as (entries & -> & _ & Hfinal).
    { unfold GetAllProxies. apply map_Forall_to_list in Hok.
      eapply Forall_impl; [exact Hok|]. by intros [port proxy]. }
    cbn [mbind option_bind]. by eexists _, _.
Qed.

Lemma registry_ok_step manager ev :
  registry_ok manager ->
  exists manager' r,
    serverStep formatTime formatPercent hex_Dump manager ev = Some (manager', r) /\
    registry_ok manager'.
Proof.
  intros Hok. destruct ev as [net_Listen now request|request|request|request
                              |listenPort now data direction|]; cbn [serverStep].
  - destruct (StartProxyHandler_Execute net_Listen now manager request)
      as [manager' r] eqn:Hrun.
    eexists _, _. split; [done|].
    destruct (start_handler_registry net_Listen now manager request)
      as [Hsame|(port & host & fport & limit & Hstart)]; rewrite Hrun in *; cbn [fst] in *.
    + by subst.
    + rewrite Hstart. by apply registry_ok_StartProxy.
  - destruct (registry_ok_get_output manager request Hok) as (manager' & r & -> & Hok').
    cbn [mbind option_bind]. by eexists _, _.
  - unfold StopProxyHandler_Execute. destruct request as [args|]; [|by eexists _, _].
    destruct (getInt args "listen_port") as [listenPort [|]]; [|by eexists _, _].
    cbn [negb].
    destruct (registry_ok_StopProxy manager listenPort Hok)
      as (manager' & [bytesCaptured err] & -> & Hok').
    cbn [mbind option_bind]. destruct err; by eexists _, _.
  - by eexists _, _.
  - destruct (registry_ok_captureOn hex_Dump manager listenPort now data direction Hok)
      as (manager' & -> & Hok').
    cbn [mbind option_bind]. by eexists _, _.
  - rewrite (registry_ok_StopAll manager Hok). cbn [mbind option_bind].
    eexists _, _. split; [done|]. apply map_Forall_empty.
Qed.

Lemma registry_ok_run events : forall manager,
  registry_ok manager ->
  exists manager',
    serverRun formatTime formatPercent hex_Dump manager events = Some manager' /\
    registry_ok manager'.
Proof.
  induction events as [|ev events IH]; intros manager Hok; [by exists manager|].
  cbn [serverRun].
  destruct (registry_ok_step manager ev Hok) as (manager1 & r & -> & Hok1).
  cbn [mbind option_bind]. by apply IH.
Qed.

(** X12. The server does not panic: whatever tools are invoked with whatever
    arguments, whatever the system answers, whatever chunks the relays
    capture, every call returns; and every registered instance is filed under
    its own port, with its [Done] channel open. *)
Theorem server_never_panics (events : list serverEvent) :
  exists manager,
    serverRun formatTime formatPercent hex_Dump NewProxyManager events = Some manager /\
    forall port p,
      proxies manager !! port = Some p -> ListenPort p = port /\ Done p = false.
Proof.
  destruct (registry_ok_run events NewProxyManager) as (manager & Hrun & Hok).
  { apply map_Forall_empty. }
  exists manager. split; [done|]. intros port p Hp.
  by destruct (Hok port p Hp) as (? & ? & _).
Qed.

(** X13. What the buffers of the server hold, at every moment: of each chunk the
    bytes the budget allows ([Bytes] is the length the chunk had), with at
    most 10 strings; in total no more bytes than the budget, and no more than
    the instance has counted as captured. *)
Theorem captured_packets_bounded (events : list serverEvent) :
  exists manager,
    serverRun formatTime formatPercent hex_Dump NewProxyManager events = Some manager /\
    forall port p,
      proxies manager !! port = Some p ->
      exists ps,
        GetAll (Buffer p) = Some (Some <$> ps) /\
        Forall (fun q => Go.len (RawData q) = Z.min (Bytes q) (maxSize (Buffer p)) /\
                         (length (AsciiStrings q) <= 10)%nat) ps /\
        total ps <= maxSize (Buffer p) /\
        total ps <= BytesCaptured (Stats p).
Proof.
  destruct (registry_ok_run events NewProxyManager) as (manager & Hrun & Hok).
  { apply map_Forall_empty. }
  exists manager. split; [done|]. intros port p Hp.
  destruct (Hok port p Hp) as (_ & _ & ps & Hrep & Hps & Hcount & Hfits).
  exists ps. split; [by apply GetAll_rep|]. done.
Qed.

Lemma proxyEntry_result clearBuffer proxy :
  (exists ps, rep (Buffer proxy) ps) ->
  exists entry,
    proxyEntry formatTime formatPercent clearBuffer proxy
    = Some (entry, if clearBuffer then cleared proxy else proxy).
Proof.
  intros [ps Hrep]. unfold proxyEntry. rewrite (GetAll_rep _ _ Hrep).
  cbn [mbind option_bind].
  destruct (mapM_is_Some_2 (captureEntry formatTime) (Some <$> ps)) as [entries ->].
  { apply Forall_fmap, Forall_forall. intros q _. by eexists. }
  cbn [mbind option_bind GetStats]. destruct clearBuffer; eexists; [done|].
  by destruct proxy.
Qed.

Lemma proxyEntries_result clearBuffer todo : forall registry,
  Forall (fun entry => exists ps, rep (Buffer entry.2) ps) todo ->
  exists entries,
    proxyEntries formatTime formatPercent clearBuffer registry todo
    = Some (foldl (fun r entry =>
                     <[entry.1 := if clearBuffer then cleared entry.2 else entry.2]> r)
                  registry todo, entries) /\
    length entries = length todo.
Proof.
  induction todo as [|[port proxy] todo IH]; intros registry Htodo.
  - by exists [].
  - apply Forall_cons in Htodo as [Hproxy Htodo]. cbn [proxyEntries foldl fst snd] in *.
    destruct (proxyEntry_result clearBuffer proxy Hproxy) as (entry & ->).
    cbn [mbind option_bind].
    destruct (IH (<[port := if clearBuffer then cleared proxy else proxy]> registry))
      as (entries & -> & Hlen); [done|].
    cbn [mbind option_bind]. exists (entry :: entries).
    split; [done|]. simpl. by rewrite Hlen.
Qed.

Lemma foldl_insert_same (todo : list (Z * ProxyInstance)) :
  forall registry : gmap Z ProxyInstance,
  Forall (fun entry => registry !! entry.1 = Some entry.2) todo ->
  foldl (fun r entry => <[entry.1 := entry.2]> r) registry todo = registry.
Proof.
  induction todo as [|[port proxy] todo IH]; intros registry Htodo; [done|].
  apply Forall_cons in Htodo as [Hproxy Htodo]. cbn [foldl fst snd] in *.
  rewrite insert_id by done. by apply IH.
Qed.

Lemma foldl_insert_fmap (f : ProxyInstance -> ProxyInstance)
    (todo : list (Z * ProxyInstance)) :
  forall registry : gmap Z ProxyInstance,
  NoDup todo.*1 ->
  foldl (fun r entry => <[entry.1 := f entry.2]> r) registry todo
  = list_to_map (prod_map id f <$> todo) ∪ registry.
Proof.
  induction todo as [|[port proxy] todo IH]; intros registry Hnodup.
  - cbn. by rewrite (left_id_L ∅ (∪)).
  - apply NoDup_cons in Hnodup as [Hport Hnodup]. cbn [foldl fst snd].
    rewrite IH by done. cbn [fmap list_fmap prod_map fst snd id].
    rewrite list_to_map_cons, <-insert_union_l, <-insert_union_r; [done|].
    apply not_elem_of_list_to_map_1.
    by rewrite <-list_fmap_compose.
Qed.

Lemma buffers_ok_todo manager :
  buffers_ok manager ->
  Forall (fun entry : Z * ProxyInstance => exists ps, rep (Buffer entry.2) ps)
    (GetAllProxies manager).
Proof.
  intros Hok. unfold GetAllProxies. apply map_Forall_to_list in Hok.
  eapply Forall_impl; [exact Hok|]. by intros [port proxy].
Qed.

(** X14. With [clear_buffer] false, get_output is a reading: the registry and its
    buffers are after the call as they were before. *)
Theorem get_output_keeps (manager : ProxyManager) (args : gmap string value) :
  buffers_ok manager ->
  args !! "clear_buffer" = Some (VBool false) ->
  exists r,
    GetProxyOutputHandler_Execute formatTime formatPercent manager (ArgsMap args)
    = Some (manager, r).
Proof.
  intros Hok Hflag. unfold GetProxyOutputHandler_Execute. rewrite Hflag.
  destruct (getInt args "listen_port") as [listenPort hasPort].
  destruct hasPort.
  - unfold GetProxy. destruct (proxies manager !! listenPort) as [proxy|] eqn:Hp;
      [|by eexists].
    destruct (proxyEntries_result false [(listenPort, proxy)] (proxies manager))
      as (entries & -> & _).
    { apply Forall_singleton. by apply (Hok listenPort). }
    cbn [mbind option_bind foldl fst snd]. rewrite insert_id by done.
    eexists. by destruct manager.
  - destruct (proxyEntries_result false (GetAllProxies manager) (proxies manager)
                (buffers_ok_todo manager Hok)) as (entries & -> & _).
    cbn [mbind option_bind]. rewrite foldl_insert_same.
    + eexists. by destruct manager.
    + apply Forall_forall. intros [port proxy] Hin. by apply elem_of_map_to_list.
Qed.

(** X15. Unless [clear_buffer] is false, get_output empties what it reports: asked
    for all the proxies, it leaves every instance with its buffer cleared,
    and reports one entry for each; asked for one port, it clears the buffer
    of that instance and of no other. *)
Theorem get_output_clears (manager : ProxyManager) (request : arguments) :
  let args := match request with ArgsMap args => args | ArgsOther => ∅ end in
  buffers_ok manager ->
  args !! "clear_buffer" <> Some (VBool false) ->
  ((getInt args "listen_port").2 = false ->
   exists entries,
     GetProxyOutputHandler_Execute formatTime formatPercent manager request
     = Some ({| proxies := cleared <$> proxies manager |},
             (Some (NewToolResultText (JObject [("proxies", JArray entries)])), None)) /\
     length entries = size (proxies manager)) /\
  (forall port p,
     getInt args "listen_port" = (port, true) ->
     proxies manager !! port = Some p ->
     exists entry,
       GetProxyOutputHandler_Execute formatTime formatPercent manager request
       = Some ({| proxies := <[port := cleared p]> (proxies manager) |},
               (Some (NewToolResultText (JObject [("proxies", JArray [entry])])), None))).
Proof.
  intros args Hok Hflag.
  assert (Hclear : match args !! "clear_buffer" with Some (VBool cb) => cb | _ => true end
                   = true).
  { destruct (args !! "clear_buffer") as [[| | | |[|]|]|]; try done. }
  split.
  - intros Hall. unfold GetProxyOutputHandler_Execute. fold args.
    destruct (getInt args "listen_port") as [listenPort hasPort].
    cbn [snd] in Hall. subst hasPort. rewrite Hclear.
    destruct (proxyEntries_result true (GetAllProxies manager) (proxies manager)
                (buffers_ok_todo manager Hok)) as (entries & -> & Hlen).
    cbn [mbind option_bind]. exists entries. split.
    + do 3 f_equal. unfold GetAllProxies.
      rewrite (foldl_insert_fmap cleared) by apply NoDup_fst_map_to_list.
      rewrite list_to_map_fmap, list_to_map_to_list.
      apply map_eq. intros port. rewrite lookup_union, lookup_fmap.
      by destruct (proxies manager !! port).
    + rewrite Hlen. apply length_map_to_list.
  - intros port p Hport Hp. unfold GetProxyOutputHandler_Execute. fold args.
    rewrite Hport, Hclear. unfold GetProxy. rewrite Hp.
    destruct (proxyEntries_result true [(port, p)] (proxies manager))
      as (entries & Hrun & Hlen).
    { apply Forall_singleton. by apply (Hok port). }
    rewrite Hrun. cbn [mbind option_bind foldl fst snd].
    destruct entries as [|entry [|? ?]]; try done. by exists entry.
Qed.

(** X16. list_proxies reports the registered proxies and nothing else: one entry
    for each, the ports of the entries being the ports of the registry, each
    once.  It returns a result and no error whatever the request is. *)
Theorem list_reports_registered (manager : ProxyManager) (request : arguments) :
  (forall port p, proxies manager !! port = Some p -> ListenPort p = port) ->
  exists ps,
    ListProxiesHandler_Execute formatTime formatPercent manager request
    = (Some (NewToolResultText
               (JObject [("proxies", JArray (listEntry formatTime formatPercent <$> ps))])),
       None) /\
    length ps = size (proxies manager) /\
    NoDup (ListenPort <$> ps) /\
    (forall port, port ∈ ListenPort <$> ps <-> is_Some (proxies manager !! port)) /\
    (forall p, p ∈ ps <-> proxies manager !! ListenPort p = Some p).
Proof.
  intros Hkeys. exists (GetAllProxies manager).*2. split; [done|].
  unfold GetAllProxies.
  assert (Hports : ListenPort <$> (map_to_list (proxies manager)).*2
                   = (map_to_list (proxies manager)).*1).
  { rewrite <-list_fmap_compose. apply list_fmap_ext.
    intros i [port p] Hin. apply list_elem_of_lookup_2, elem_of_map_to_list in Hin.
    by apply Hkeys. }
  split; [by rewrite length_fmap, length_map_to_list|].
  rewrite Hports. split; [apply NoDup_fst_map_to_list|]. split.
  - intros port. rewrite list_elem_of_fmap. split.
    + intros ([port' p] & -> & Hin). apply elem_of_map_to_list in Hin. by eexists.
    + intros [p Hp]. exists (port, p). split; [done|]. by apply elem_of_map_to_list.
  - intros p. rewrite list_elem_of_fmap. split.
    + intros ([port p'] & -> & Hin). apply elem_of_map_to_list in Hin.
      cbn [snd]. by rewrite (Hkeys _ _ Hin).
    + intros Hp. exists (ListenPort p, p). split; [done|]. by apply elem_of_map_to_list.
Qed.

(** X17. A start whose [forward_host] is absent, empty or not a string forwards to
    localhost: the instance is registered with that host, and the result says
    so. *)
Theorem start_forward_host net_Listen now (manager : ProxyManager)
    (args : gmap string value) port fport listener :
  getInt args "listen_port" = (port, true) ->
  getInt args "forward_port" = (fport, true) ->
  proxies manager !! port = None ->
  net_Listen "tcp" (":" +:+ Go.fmt_d port) = inl listener ->
  let host := match args !! "forward_host" with
              | Some (VString h) => if bool_decide (h = "") then "localhost" else h
              | _ => "localhost"
              end in
  exists p,
    proxies (StartProxyHandler_Execute net_Listen now manager (ArgsMap args)).1 !! port
    = Some p /\
    ListenPort p = port /\ ForwardHost p = host /\ ForwardPort p = fport /\
    (StartProxyHandler_Execute net_Listen now manager (ArgsMap args)).2
    = (Some (NewToolResultText (JObject
         [("status", JString "started");
          ("listen_port", JInt port);
          ("forward_to", JString (host +:+ ":" +:+ Go.fmt_d fport))])), None).
Proof.
  intros Hl Hf Hfree Hbind host.
  pose proof (start_well_formed net_Listen now manager args port fport Hl Hf) as Hwf.
  cbv zeta in Hwf. unfold StartProxy in Hwf. rewrite Hfree, Hbind in Hwf.
  rewrite Hwf. cbn [fst snd proxies]. rewrite lookup_insert_eq.
  assert (Hhost : (if bool_decide ((getString args "forward_host").1 = "")
                   then "localhost" else (getString args "forward_host").1) = host).
  { unfold getString, host.
    destruct (args !! "forward_host") as [[| | |h| |]|]; try done. }
  rewrite Hhost. eexists. split; [done|]. done.
Qed.

End ToolsMore.

Section ToolsMoreWitnesses.
Import Buffer Proxy Tools.
Local Open Scope Z_scope.

Lemma registry_ok_testManager : registry_ok testManager.
Proof. apply registry_ok_StartProxy, map_Forall_empty. Qed.

Lemma getInt_json_number_witness :
  - 2 ^ 53 < 8080 < 2 ^ 53 /\
  stopArgs !! "listen_port" = Some (VFloat64 (Go.float64_of_int 8080)) /\
  getInt stopArgs "listen_port" = (8080, true).
Proof.
  assert (Hn : - 2 ^ 53 < 8080 < 2 ^ 53) by (by vm_compute).
  assert (Hkey : stopArgs !! "listen_port" = Some (VFloat64 (Go.float64_of_int 8080)))
    by reflexivity.
  split; [exact Hn|]. split; [exact Hkey|].
  exact (getInt_json_number stopArgs "listen_port" 8080 Hn Hkey).
Defined.

Lemma get_output_keeps_witness :
  buffers_ok testManager /\
  ({[ "clear_buffer" := VBool false ]} : gmap string value) !! "clear_buffer"
  = Some (VBool false) /\
  exists r,
    GetProxyOutputHandler_Execute (fun _ => "") (fun _ => "") testManager
      (ArgsMap {[ "clear_buffer" := VBool false ]})
    = Some (testManager, r).
Proof.
  assert (Hok : buffers_ok testManager)
    by apply registry_ok_buffers_ok, registry_ok_testManager.
  assert (Hflag : ({[ "clear_buffer" := VBool false ]} : gmap string value)
                    !! "clear_buffer" = Some (VBool false)) by reflexivity.
  split; [exact Hok|]. split; [exact Hflag|].
  exact (get_output_keeps (fun _ => "") (fun _ => "") testManager _ Hok Hflag).
Defined.

Lemma get_output_clears_witness :
  buffers_ok testManager /\
  (∅ : gmap string value) !! "clear_buffer" <> Some (VBool false) /\
  (getInt ∅ "listen_port").2 = false /\
  exists entries,
    GetProxyOutputHandler_Execute (fun _ => "") (fun _ => "") testManager ArgsOther
    = Some ({| proxies := cleared <$> proxies testManager |},
            (Some (NewToolResultText (JObject [("proxies", JArray entries)])), None)) /\
    length entries = size (proxies testManager).
Proof.
  assert (Hok : buffers_ok testManager)
    by apply registry_ok_buffers_ok, registry_ok_testManager.
  assert (Hflag : (∅ : gmap string value) !! "clear_buffer" <> Some (VBool false))
    by done.
  assert (Hall : (getInt ∅ "listen_port").2 = false) by reflexivity.
  split; [exact Hok|]. split; [exact Hflag|]. split; [exact Hall|].
  exact (proj1 (get_output_clears (fun _ => "") (fun _ => "") testManager ArgsOther
                  Hok Hflag) Hall).
Defined.

Lemma list_reports_registered_witness :
  (forall port p, proxies testManager !! port = Some p -> ListenPort p = port) /\
  exists ps,
    ListProxiesHandler_Execute (fun _ => "") (fun _ => "") testManager ArgsOther
    = (Some (NewToolResultText
               (JObject [("proxies",
                          JArray (listEntry (fun _ => "") (fun _ => "") <$> ps))])),
       None) /\
    length ps = size (proxies testManager) /\
    (forall port, port ∈ ListenPort <$> ps <-> is_Some (proxies testManager !! port)).
Proof.
  assert (Hkeys : forall port p,
            proxies testManager !! port = Some p -> ListenPort p = port).
  { intros port p Hp. by destruct (registry_ok_testManager port p Hp) as (_ & ? & _). }
  split; [exact Hkeys|].
  destruct (list_reports_registered (fun _ => "") (fun _ => "") testManager ArgsOther
              Hkeys) as (ps & Hrun & Hlen & _ & Hports & _).
  exists ps. split; [exact Hrun|]. split; [exact Hlen|exact Hports].
Defined.

Lemma start_forward_host_witness :
  getInt startArgs "listen_port" = (8080, true) /\
  getInt startArgs "forward_port" = (3000, true) /\
  proxies NewProxyManager !! 8080 = None /\
  exists p,
    proxies (StartProxyHandler_Execute (fun _ _ => inl 3) 0 NewProxyManager
               (ArgsMap startArgs)).1 !! 8080 = Some p /\
    ForwardHost p = "localhost" /\
    (StartProxyHandler_Execute (fun _ _ => inl 3) 0 NewProxyManager (ArgsMap startArgs)).2
    = (Some (NewToolResultText (JObject
         [("status", JString "started");
          ("listen_port", JInt 8080);
          ("forward_to", JString "localhost:3000")])), None).
Proof.
  assert (Hl : getInt startArgs "listen_port" = (8080, true)) by (by vm_compute).
  assert (Hf : getInt startArgs "forward_port" = (3000, true)) by (by vm_compute).
  assert (Hfree : proxies NewProxyManager !! 8080 = None) by reflexivity.
  split; [exact Hl|]. split; [exact Hf|]. split; [exact Hfree|].
  destruct (start_forward_host (fun _ _ => inl 3) 0 NewProxyManager startArgs 8080 3000 3
              Hl Hf Hfree eq_refl) as (p & Hp & _ & Hhost & _ & Hres).
  exists p. split; [exact Hp|]. split; [exact Hhost|exact Hres].
Defined.

End ToolsMoreWitnesses.
